(** * price_monitor.py: a shallow embedding and its verified properties

    The definitions follow [src/price_monitor.py]:

    - [PyStr]    Python text: sequences of Unicode code points and the
                 [str] methods the program calls;
    - [PyLib]    the library functions that are tables or algorithms of
                 their own (Unicode data, [urljoin], [repr] of a float),
                 taken as parameters;
    - [PyFloat]  Python [float]: IEEE 754 binary64 values, their comparisons
                 and the constructor [float(str)];
    - [Price]    [parse_price];
    - [Json]     [json.dump] and [json.load] on arrays of strings;
    - [Monitor]  the fetcher, the two discoverers, the extractor, the
                 category scan, the aggregation of the outcomes and the
                 persisted dedup store.

    State is passed explicitly: a [World] holds the network (what the n-th
    GET of the run answers), the set [seen_products], the log of alerts and
    the text of the store's file. Time is not modelled: the delay before an
    attempt and the back-off between attempts leave no trace. The worker
    pool is modelled by running the category tasks one after the other.

    The properties C1 to C10 come after the definitions. *)

From Stdlib Require Import ZArith NArith List Bool String Ascii Lia.
From Stdlib Require Import Floats.SpecFloat.
From stdpp Require Import base decidable option list fin countable gmap sets.

#[local] Set Warnings "-clear-no-such-hyp,-register-all".
Local Open Scope Z_scope.

(** ** Python text *)

Module PyStr.

(** A Python [str] is a sequence of code points. *)
Abbreviation str := (list N).

(** Literals are written as UTF-8 text and decoded to code points. *)
Fixpoint utf8_go (pending : nat) (acc : N) (bs : list N) : list N :=
  match bs with
  | [] => []
  | b :: bs' =>
      match pending with
      | O =>
          if (b <? 128)%N then b :: utf8_go 0 0%N bs'
          else if (b <? 224)%N then utf8_go 1 (b mod 32)%N bs'
          else if (b <? 240)%N then utf8_go 2 (b mod 16)%N bs'
          else utf8_go 3 (b mod 8)%N bs'
      | S O => (acc * 64 + b mod 64)%N :: utf8_go 0 0%N bs'
      | S p => utf8_go p (acc * 64 + b mod 64)%N bs'
      end
  end.

Fixpoint bytes_of (s : string) : list N :=
  match s with
  | EmptyString => []
  | String a s' => N_of_ascii a :: bytes_of s'
  end.

Definition u (s : string) : str := utf8_go 0 0%N (bytes_of s).

(** Single characters used below. *)
Definition ch (s : string) : N := hd 0%N (u s).

(** [c in s] for a one-character [c]. *)
Definition has_char (c : N) (s : str) : bool := existsb (N.eqb c) s.

(** [s.count(c)] for a one-character [c]. *)
Definition count (c : N) (s : str) : Z :=
  Z.of_nat (length (filter (fun x => N.eqb x c = true) s)).

(** [s.find(c)]: index of the first occurrence, -1 when there is none. *)
Fixpoint find (c : N) (s : str) : Z :=
  match s with
  | [] => -1
  | x :: s' =>
      if N.eqb x c then 0
      else let r := find c s' in if r <? 0 then -1 else r + 1
  end.

(** [s.rfind(c)]: index of the last occurrence, -1 when there is none. *)
Fixpoint rfind (c : N) (s : str) : Z :=
  match s with
  | [] => -1
  | x :: s' =>
      let r := rfind c s' in
      if 0 <=? r then r + 1
      else if N.eqb x c then 0 else -1
  end.

(** [s.replace(c, t)] for a one-character [c]. *)
Definition replace (c : N) (t : str) (s : str) : str :=
  flat_map (fun x => if N.eqb x c then t else [x]) s.

Definition len (s : str) : Z := Z.of_nat (length s).

Definition eqb (s t : str) : bool := bool_decide (s = t).

(** [s.startswith(p)]. *)
Fixpoint startswith (s p : str) : bool :=
  match p, s with
  | [], _ => true
  | _ :: _, [] => false
  | a :: p', b :: s' => N.eqb a b && startswith s' p'
  end.

(** [needle in hay] for strings. *)
Fixpoint contains (needle hay : str) : bool :=
  startswith hay needle ||
  match hay with
  | [] => false
  | _ :: hay' => contains needle hay'
  end.

(** [x in [a, b, ...]] for a list of strings. *)
Definition in_list (x : str) (l : list str) : bool := existsb (eqb x) l.

Definition is_ascii (s : str) : bool := forallb (fun c => (c <? 128)%N) s.

Definition ascii_lower_char (c : N) : N :=
  if (65 <=? c)%N && (c <=? 90)%N then (c + 32)%N else c.

(** [str.isspace] for one character, which is also what [\s] matches in a
    [str] pattern. *)
Definition is_space (c : N) : bool :=
  ((9 <=? c) && (c <=? 13) || (28 <=? c) && (c <=? 32) ||
   (c =? 133) || (c =? 160) || (c =? 5760) ||
   (8192 <=? c) && (c <=? 8202) || (c =? 8232) || (c =? 8233) ||
   (c =? 8239) || (c =? 8287) || (c =? 12288))%N.

(** [s.strip()]. *)
Fixpoint lstrip_space (s : str) : str :=
  match s with
  | c :: s' => if is_space c then lstrip_space s' else s
  | [] => []
  end.

Definition strip_space (s : str) : str :=
  rev (lstrip_space (rev (lstrip_space s))).

Definition is_ascii_letter (c : N) : bool :=
  ((65 <=? c) && (c <=? 90) || (97 <=? c) && (c <=? 122))%N.

Definition is_ascii_digit (c : N) : bool := ((48 <=? c) && (c <=? 57))%N.

End PyStr.

Import PyStr.

(** ** The parts of the Python runtime and of the imported packages that the
    program calls and that are tables or algorithms of their own: the Unicode
    database behind [float], [str.isdigit] and [str.lower],
    [urllib.parse.urljoin], and [float.__repr__]. *)

Class PyLib := {
  (** [Py_UNICODE_TODECIMAL] on a non-ASCII code point *)
  unicode_decimal : N -> option (fin 10);
  (** [str.isdigit] on a non-ASCII code point *)
  unicode_isdigit : N -> bool;
  (** [str.lower] on a string that is not pure ASCII *)
  unicode_lower : list N -> list N;
  (** [urljoin(base, url)]; [None] where it raises [ValueError], as on an
      [href] with an unclosed bracket in the host *)
  urljoin : list N -> list N -> option (list N);
  (** [repr(x)] of a float, as used by an f-string *)
  float_repr : spec_float -> list N
}.

(** [s.lower()]. *)
Definition lower `{PyLib} (s : str) : str :=
  if is_ascii s then map ascii_lower_char s else unicode_lower s.

(** [c.isdigit()] for one character. *)
Definition isdigit `{PyLib} (c : N) : bool :=
  if (c <? 128)%N then is_ascii_digit c else unicode_isdigit c.

(** ** Python floats *)

Module PyFloat.

(** A Python [float] is an IEEE 754 binary64 value. *)
Definition prec : Z := 53.
Definition emax : Z := 1024.

Abbreviation float := spec_float.

Definition inf : float := S754_infinity false.
Definition nan : float := S754_nan.

(** [x < y], [x <= y], [x == y], [x != y] and [x > y] on floats. *)
Definition ltb (x y : float) : bool := SFltb x y.
Definition leb (x y : float) : bool := SFleb x y.
Definition eqb (x y : float) : bool := SFeqb x y.
Definition neb (x y : float) : bool := negb (SFeqb x y).
Definition gtb (x y : float) : bool := SFltb y x.

(** The float nearest to [n / d] (ties to even) with the sign [neg];
    [n >= 0], [d > 0]. *)
Definition of_ratio (neg : bool) (n d : Z) : float :=
  match n, d with
  | Z0, _ => S754_zero neg
  | Zpos pn, Zpos pd =>
      SFdiv prec emax (S754_finite neg pn 0) (S754_finite false pd 0)
  | _, _ => nan
  end.

(** An [int] operand of a comparison with a float (exact below 2^53). *)
Definition of_int (n : Z) : float := binary_normalize prec emax n 0 false.

(** *** [float(s)] for a [str] argument *)

(** Non-ASCII decimal digits and spaces are first mapped to ASCII; the first
    other non-ASCII character ends the text with a question mark. *)
Fixpoint transform_decimal_and_space `{PyLib} (s : str) : str :=
  match s with
  | [] => []
  | c :: s' =>
      if (c <? 127)%N then c :: transform_decimal_and_space s'
      else if is_space c then 32%N :: transform_decimal_and_space s'
      else match unicode_decimal c with
           | Some d => (48 + N.of_nat (fin_to_nat d))%N :: transform_decimal_and_space s'
           | None => [63%N]
           end
  end.

Definition to_ascii `{PyLib} (s : str) : str :=
  if is_ascii s then s else transform_decimal_and_space s.

(** Underscores may only separate two digits; they are dropped. [None] is
    the [ValueError]. *)
Fixpoint strip_underscores (prev : N) (s : str) : option str :=
  match s with
  | [] => if (prev =? 95)%N then None else Some []
  | c :: s' =>
      if (c =? 95)%N then
        if is_ascii_digit prev then strip_underscores c s' else None
      else if (prev =? 95)%N && negb (is_ascii_digit c) then None
      else cons c <$> strip_underscores c s'
  end.

Definition c_isspace (c : N) : bool :=
  ((9 <=? c) && (c <=? 13) || (c =? 32))%N.

Fixpoint lstrip (s : str) : str :=
  match s with
  | c :: s' => if c_isspace c then lstrip s' else s
  | [] => []
  end.

Definition strip (s : str) : str := rev (lstrip (rev (lstrip s))).

Fixpoint span_digits (s : str) : str * str :=
  match s with
  | c :: s' =>
      if is_ascii_digit c
      then let '(ds, r) := span_digits s' in (c :: ds, r)
      else ([], s)
  | [] => ([], [])
  end.

Definition digits_value (ds : str) : Z :=
  fold_left (fun acc c => 10 * acc + (Z.of_N c - 48)) ds 0.

Definition take_sign (s : str) : bool * str :=
  match s with
  | 45%N :: s' => (true, s')
  | 43%N :: s' => (false, s')
  | _ => (false, s)
  end.

(** The exponent part: empty, or [e]/[E], an optional sign and digits up to
    the end of the text. *)
Definition parse_exponent (s : str) : option Z :=
  match s with
  | [] => Some 0
  | c :: s' =>
      if (c =? 101)%N || (c =? 69)%N then
        let '(neg, s'') := take_sign s' in
        match span_digits s'' with
        | ((_ :: _) as ds, []) =>
            Some (if neg then - digits_value ds else digits_value ds)
        | _ => None
        end
      else None
  end.

(** The whole of [s] written as a decimal number: sign, digits with an
    optional point, and an optional exponent. *)
Definition parse_decimal (s : str) : option float :=
  let '(neg, s1) := take_sign s in
  let '(ip, s2) := span_digits s1 in
  let '(fp, s3) :=
    match s2 with
    | 46%N :: r => span_digits r
    | _ => ([], s2)
    end in
  match ip ++ fp with
  | [] => None
  | ds =>
      e ← parse_exponent s3;
      let sh := e - len fp in
      Some (of_ratio neg (digits_value ds * 10 ^ Z.max 0 sh) (10 ^ Z.max 0 (- sh)))
  end.

(** [inf], [infinity] and [nan] in any case, with an optional sign. *)
Definition parse_inf_or_nan (s : str) : option float :=
  let '(neg, s1) := take_sign s in
  let w := map ascii_lower_char s1 in
  if PyStr.eqb w (u "inf") || PyStr.eqb w (u "infinity")
  then Some (S754_infinity neg)
  else if PyStr.eqb w (u "nan") then Some nan
  else None.

(** [float(s)]; [None] is the [ValueError]. *)
Definition float_of_str `{PyLib} (s : str) : option float :=
  t ← strip_underscores 0%N (to_ascii s);
  let t' := strip t in
  match parse_inf_or_nan t' with
  | Some x => Some x
  | None => parse_decimal t'
  end.

End PyFloat.

(** ** The price parser *)

Module Price.
Import PyFloat.

(** The character class of [re.sub(r'[A-Za-z\s€$£RON]', '', price_text)]. *)
Definition currency_class (c : N) : bool :=
  is_ascii_letter c || is_space c ||
  (c =? ch "€")%N || (c =? ch "$")%N || (c =? ch "£")%N ||
  (c =? ch "R")%N || (c =? ch "O")%N || (c =? ch "N")%N.

Definition strip_currency (s : str) : str :=
  List.filter (fun c => negb (currency_class c)) s.

Definition dot : N := ch ".".
Definition comma : N := ch ",".

(** The separator rewriting done inside the [try] block. *)
Definition normalize_separators (price_text : str) : str :=
  let dot_count := count dot price_text in
  let comma_count := count comma price_text in
  if (comma_count >? 0) && (dot_count >? 0) then
    if rfind comma price_text >? rfind dot price_text
    then replace comma (u ".") (replace dot [] price_text)
    else replace comma [] price_text
  else if comma_count >? 0 then
    if (comma_count =? 1) && (find comma price_text >? len price_text - 4)
    then replace comma (u ".") price_text
    else replace comma [] price_text
  else if dot_count >? 1 then replace dot [] price_text
  else price_text.

(** [parse_price(price_text)]; the result [inf] means that no price was
    read. *)
Definition parse_price `{PyLib} (price_text : str) : float :=
  match price_text with
  | [] => inf
  | _ =>
      if has_char (ch "%") price_text then inf
      else
        let price_text := strip_currency price_text in
        let price_text := normalize_separators price_text in
        match float_of_str price_text with
        | Some price =>
            if leb price (of_int 0) || gtb price (of_int 999999)
            then inf
            else price
        | None => inf
        end
  end.

End Price.

(** ** JSON text for arrays of strings

    [json.dump(list_of_str, f, indent=2, ensure_ascii=False)] and
    [json.load(f)], the latter on texts that hold an array of strings. *)

Module Json.

Definition hex_digit (d : N) : N :=
  if (d <? 10)%N then (48 + d)%N else (87 + d)%N.

(** One character of a string as the encoder writes it
    ([ensure_ascii=False]). *)
Definition escape_char (c : N) : str :=
  if (c =? 34)%N then [92; 34]%N
  else if (c =? 92)%N then u "\\"
  else if (c =? 10)%N then u "\n"
  else if (c =? 13)%N then u "\r"
  else if (c =? 9)%N then u "\t"
  else if (c =? 8)%N then u "\b"
  else if (c =? 12)%N then u "\f"
  else if (c <? 32)%N
       then u "\u00" ++ [hex_digit (c / 16); hex_digit (c mod 16)]
  else [c].

Definition encode_string (s : str) : str :=
  34%N :: flat_map escape_char s ++ [34%N].

Definition newline_indent : str := [10; 32; 32]%N.

(** The chunks the encoder yields for a list of strings, in order. *)
Fixpoint item_chunks (first : bool) (l : list str) : list str :=
  match l with
  | [] => []
  | k :: l' =>
      ((if first then 91%N :: newline_indent else 44%N :: newline_indent)
         ++ encode_string k) :: item_chunks false l'
  end.

Definition chunks (l : list str) : list str :=
  match l with
  | [] => [u "[]"]
  | _ => item_chunks true l ++ [[10%N]; [93%N]]
  end.

Definition dumps (l : list str) : str := concat (chunks l).

(** *** Decoding *)

Definition is_ws (c : N) : bool :=
  ((c =? 32) || (c =? 9) || (c =? 10) || (c =? 13))%N.

Definition hex_value (c : N) : option N :=
  if is_ascii_digit c then Some (c - 48)%N
  else if ((97 <=? c) && (c <=? 102))%N then Some (c - 87)%N
  else if ((65 <=? c) && (c <=? 70))%N then Some (c - 55)%N
  else None.

Definition is_high_surrogate (c : N) : bool :=
  ((55296 <=? c) && (c <=? 56319))%N.
Definition is_low_surrogate (c : N) : bool :=
  ((56320 <=? c) && (c <=? 57343))%N.
Definition join_surrogates (hi lo : N) : N :=
  (65536 + (hi - 55296) * 1024 + (lo - 56320))%N.

(** The decoder reads the text once, left to right. [done] holds the
    strings read so far, [cur] the characters of the string being read (both
    most recent first), [hi] a high surrogate that was written as an escape
    and may still be joined with a low one that follows as an escape. *)
Inductive state :=
| Start
| Open (done : list str)            (* after the bracket or a comma *)
| OpenFirst                         (* after the bracket: a closing one may follow *)
| InString (done : list str) (cur : str) (hi : option N)
| Escape (done : list str) (cur : str) (hi : option N)
| Hex (done : list str) (cur : str) (hi : option N) (n : nat) (v : N)
| AfterString (done : list str)
| Closed (done : list str).

Definition flush (cur : str) (hi : option N) : str :=
  match hi with Some h => h :: cur | None => cur end.

(** A complete four-digit escape with value [v]. *)
Definition end_hex (done : list str) (cur : str) (hi : option N) (v : N) : state :=
  match hi with
  | Some h =>
      if is_low_surrogate v
      then InString done (join_surrogates h v :: cur) None
      else if is_high_surrogate v
           then InString done (h :: cur) (Some v)
           else InString done (v :: h :: cur) None
  | None =>
      if is_high_surrogate v
      then InString done cur (Some v)
      else InString done (v :: cur) None
  end.

Definition step (st : state) (c : N) : option state :=
  match st with
  | Start =>
      if is_ws c then Some Start
      else if (c =? 91)%N then Some OpenFirst else None
  | OpenFirst =>
      if is_ws c then Some OpenFirst
      else if (c =? 93)%N then Some (Closed [])
      else if (c =? 34)%N then Some (InString [] [] None) else None
  | Open done =>
      if is_ws c then Some (Open done)
      else if (c =? 34)%N then Some (InString done [] None) else None
  | InString done cur hi =>
      if (c =? 34)%N then Some (AfterString (rev (flush cur hi) :: done))
      else if (c =? 92)%N then Some (Escape done cur hi)
      else if (c <? 32)%N then None
      else Some (InString done (c :: flush cur hi) None)
  | Escape done cur hi =>
      if (c =? 117)%N then Some (Hex done cur hi 0 0%N)
      else
        let plain x := Some (InString done (x :: flush cur hi) None) in
        if (c =? 34)%N then plain 34%N
        else if (c =? 92)%N then plain 92%N
        else if (c =? 47)%N then plain 47%N
        else if (c =? 98)%N then plain 8%N
        else if (c =? 102)%N then plain 12%N
        else if (c =? 110)%N then plain 10%N
        else if (c =? 114)%N then plain 13%N
        else if (c =? 116)%N then plain 9%N
        else None
  | Hex done cur hi n v =>
      d ← hex_value c;
      let v' := (v * 16 + d)%N in
      Some (if Nat.eqb n 3 then end_hex done cur hi v'
            else Hex done cur hi (S n) v')
  | AfterString done =>
      if is_ws c then Some (AfterString done)
      else if (c =? 44)%N then Some (Open done)
      else if (c =? 93)%N then Some (Closed done) else None
  | Closed done => if is_ws c then Some (Closed done) else None
  end.

Fixpoint run (st : state) (s : str) : option state :=
  match s with
  | [] => Some st
  | c :: s' => st' ← step st c; run st' s'
  end.

(** [json.loads(text)] when the text is an array of strings; [None] for a
    text that is not JSON, and for JSON of any other shape, which the
    program never writes. *)
Definition loads_strings (text : str) : option (list str) :=
  match run Start text with
  | Some (Closed done) => Some (rev done)
  | _ => None
  end.

End Json.

(** ** The monitor *)

Module Monitor.
Import PyFloat Price.

(** The settings the crawl reads from [config], with their defaults
    applied. *)
Record Config := {
  base_url : str;
  max_price : float;
  excluded_url_patterns : list str
}.

(** *** Parsed markup

    A BeautifulSoup element (the whole document included), observed through
    the methods the program calls on it. *)
Inductive Tag := mkTag {
  name : str;                        (* [tag.name] *)
  attrs : list (str * str);          (* [tag.attrs] *)
  get_text : str;                    (* [tag.get_text()] *)
  get_text_strip : str;              (* [tag.get_text(strip=True)] *)
  strings : list str;                (* [tag.find_all(string=True)] *)
  select : str -> list Tag;          (* [tag.select(selector)] *)
  find_all_a_href : list Tag;        (* [tag.find_all('a', href=True)] *)
  find_parent_block : option Tag;    (* [tag.find_parent(['div', 'article', 'li', 'section'])] *)
  markup : str                       (* [str(tag)], which hashes the element *)
}.

Fixpoint assoc (k : str) (l : list (str * str)) : option str :=
  match l with
  | [] => None
  | (k', v) :: l' => if PyStr.eqb k k' then Some v else assoc k l'
  end.

(** [tag.get(key, default)]. *)
Definition get (t : Tag) (key dflt : str) : str :=
  default dflt (assoc key (attrs t)).

(** [tag.select_one(selector)]. *)
Definition select_one (t : Tag) (selector : str) : option Tag :=
  head (select t selector).

(** *** The network and the process state *)

(** What one attempt of the fetcher (the delay, [requests.get] and
    [raise_for_status]) does: it returns a response, given here by its body
    as BeautifulSoup parses it, raises a [RequestException], or raises
    something else. *)
Inductive attempt :=
| Served (soup : Tag)
| RequestError
| OtherError.

Record Product := { title : str; price : float; url : str }.

Record World := {
  net : nat -> str -> attempt;   (* the outcome of the n-th GET of the run *)
  requests_made : nat;
  seen_products : gset (list N); (* the global [seen_products] *)
  alerts : list Product;         (* per-product calls of [send_telegram_alert], latest first *)
  seen_file : option str         (* the text of seen_products.json, if it exists *)
}.

Definition with_requests (w : World) (n : nat) : World :=
  {| net := net w; requests_made := n; seen_products := seen_products w;
     alerts := alerts w; seen_file := seen_file w |}.
Definition with_seen (w : World) (s : gset (list N)) : World :=
  {| net := net w; requests_made := requests_made w; seen_products := s;
     alerts := alerts w; seen_file := seen_file w |}.
Definition with_alerts (w : World) (a : list Product) : World :=
  {| net := net w; requests_made := requests_made w;
     seen_products := seen_products w; alerts := a; seen_file := seen_file w |}.
Definition with_file (w : World) (f : option str) : World :=
  {| net := net w; requests_made := requests_made w;
     seen_products := seen_products w; alerts := alerts w; seen_file := f |}.

(** Computations that read and change the world and may raise. *)
Inductive result (A : Type) :=
| Ok (a : A)
| Raised.
Arguments Ok {A} a.
Arguments Raised {A}.

Definition M (A : Type) : Type := World -> result A * World.

Definition ret {A} (a : A) : M A := fun w => (Ok a, w).
Definition raise {A} : M A := fun w => (Raised, w).
Definition bind {A B} (m : M A) (k : A -> M B) : M B :=
  fun w => match m w with
           | (Ok a, w') => k a w'
           | (Raised, w') => (Raised, w')
           end.
(** [try: m except Exception: h]. *)
Definition try_except {A} (m : M A) (h : M A) : M A :=
  fun w => match m w with
           | (Ok a, w') => (Ok a, w')
           | (Raised, w') => h w'
           end.

Notation "'let*' x := m 'in' k" := (bind m (fun x => k))
  (at level 10, x name, k at level 200).

(** *** Fetcher *)

(** The loop [for attempt in range(max_retries)] from iteration [attempt]
    on, with [todo] iterations left. *)
Fixpoint make_request_loop (url : str) (max_retries attempt todo : nat) : M (option Tag) :=
  match todo with
  | O => ret None
  | S todo' => fun w =>
      let w' := with_requests w (S (requests_made w)) in
      match net w (requests_made w) url with
      | Served soup => (Ok (Some soup), w')
      | RequestError =>
          if Nat.eqb attempt (max_retries - 1) then (Ok None, w')
          else make_request_loop url max_retries (S attempt) todo' w'
      | OtherError => (Raised, w')
      end
  end.

Definition make_request (url : str) (max_retries : nat) : M (option Tag) :=
  make_request_loop url max_retries 0 max_retries.

Definition default_retries : nat := 3.

(** *** Category Discoverer *)

Definition menu_selectors : list str :=
  [u "nav a"; u ".navigation a"; u ".menu a"; u ".nav-menu a";
   u "header nav a"; u ".category-menu a"; u ".main-nav a"; u "#menu a";
   u "ul.menu a"].

Definition excluded_keywords : list str :=
  [u "account"; u "cart"; u "checkout"; u "login"; u "register"; u "signup";
   u "forgot"; u "password"; u "orders"; u "order"; u "return"; u "returns";
   u "blog"; u "testimonials"; u "contact"; u "about"; u "terms";
   u "conditions"; u "policy"; u "privacy"; u "delivery"; u "shipping";
   u "payment"; u "payments"; u "map"; u "search"; u "wishlist";
   u "wish-list"; u "favorites"; u "favourites"; u "newsletter";
   u "subscribe"; u "cookies"; u "how-to-buy"; u "faq"; u "price-guarantee";
   u "loyalty"; u "rewards"; u "points"; u "size-guide"; u "size-chart";
   u "info"; u "information"].

(** [any(k in text for k in keys)]. *)
Definition any_in (keys : list str) (text : str) : bool :=
  existsb (fun k => contains k text) keys.

(** The body of [for link in links] for one link: the URL it adds to
    [categories], if any; [Raised] when [urljoin] raises, which nothing in
    [get_all_categories] catches. *)
Definition category_of_link `{PyLib} (cfg : Config) (base : str) (link : Tag) : result (option str) :=
  let href := get link (u "href") [] in
  if PyStr.eqb href [] || in_list href [u "#"; u "/"; []] then Ok None
  else
    match urljoin base href with
    | None => Raised
    | Some full_url =>
        if negb (startswith full_url base) then Ok None
        else
          let url_lower := lower full_url in
          if any_in excluded_keywords url_lower then Ok None
          else if any_in (excluded_url_patterns cfg) url_lower then Ok None
          else Ok (Some full_url)
    end.

(** The loop [for link in links]: the set when the loop ends, or [Raised]
    at the first link on which [urljoin] raises. *)
Fixpoint add_categories `{PyLib} (cfg : Config) (base : str) (links : list Tag)
    (categories : gset (list N)) : result (gset (list N)) :=
  match links with
  | [] => Ok categories
  | link :: rest =>
      match category_of_link cfg base link with
      | Raised => Raised
      | Ok None => add_categories cfg base rest categories
      | Ok (Some full_url) => add_categories cfg base rest (categories ∪ {[full_url]})
      end
  end.

(** The loop [for selector in menu_selectors], which has no [break]. *)
Fixpoint collect_categories `{PyLib} (cfg : Config) (base : str) (soup : Tag)
    (selectors : list str) (categories : gset (list N)) : result (gset (list N)) :=
  match selectors with
  | [] => Ok categories
  | selector :: rest =>
      match add_categories cfg base (select soup selector) categories with
      | Raised => Raised
      | Ok categories' => collect_categories cfg base soup rest categories'
      end
  end.

(** [get_all_categories(base_url)]; the list holds the members of the set
    in the order [elements] gives. *)
Definition get_all_categories `{PyLib} (cfg : Config) (base : str) : M (list str) :=
  let* response := make_request base default_retries in
  match response with
  | None => ret []
  | Some soup =>
      match collect_categories cfg base soup menu_selectors ∅ with
      | Raised => raise
      | Ok categories => ret (elements categories)
      end
  end.

(** *** Pagination Discoverer *)

Definition pagination_selectors : list str :=
  [u ".pagination a"; u ".pager a";
   (* a[rel=...], with the value next in double quotes *)
   [97; 91; 114; 101; 108; 61; 34; 110; 101; 120; 116; 34; 93]%N;
   u ".page-numbers a"; u "nav.pagination a"; u "ul.pagination a"].

(** The loop [for link in pagination_links], which appends to [pages] in
    place: the list as it stands when the loop ends ([Ok]) or when
    [urljoin] raises ([Raised]). *)
Fixpoint add_pages `{PyLib} (category_url : str) (links : list Tag) (pages : list str)
    : result unit * list str :=
  match links with
  | [] => (Ok tt, pages)
  | link :: rest =>
      let href := get link (u "href") [] in
      if negb (PyStr.eqb href []) && negb (in_list href [u "#"; u "javascript:void(0)"])
      then
        match urljoin category_url href with
        | None => (Raised, pages)
        | Some full_url =>
            if in_list full_url pages
            then add_pages category_url rest pages
            else add_pages category_url rest (pages ++ [full_url])
        end
      else add_pages category_url rest pages
  end.

(** The loop [for selector in pagination_selectors], left at the first
    selector with matches. *)
Fixpoint paginate `{PyLib} (category_url : str) (soup : Tag) (selectors : list str)
    (pages : list str) : result unit * list str :=
  match selectors with
  | [] => (Ok tt, pages)
  | selector :: rest =>
      match select soup selector with
      | [] => paginate category_url soup rest pages
      | links => add_pages category_url links pages
      end
  end.

Definition sorted_url_of (category_url : str) : str :=
  let separator := if has_char (ch "?") category_url then u "&" else u "?" in
  category_url ++ separator ++ u "sort_by=price_asc".

(** [get_all_pages(category_url)]. *)
Definition get_all_pages `{PyLib} (category_url : str) : M (list str) :=
  let sorted_url := sorted_url_of category_url in
  let pages := [sorted_url] in
  try_except
    (let* response := make_request sorted_url default_retries in
     match response with
     | None => ret pages
     | Some soup =>
         match paginate category_url soup pagination_selectors pages with
         | (Ok _, pages') => ret pages'
         | (Raised, pages') => ret pages'   (* [except Exception], then [return pages] *)
         end
     end)
    (ret pages).

(** *** Extractor *)

Definition container_selectors : list str :=
  [u ".product"; u ".product-item"; u ".product-card"; u "article.product";
   u ".item-product"; u "[data-product-id]"; u ".grid-item";
   u ".product-listing-item";
   (* [class*=...] with the values product, item and grid in double quotes *)
   u "[class*=" ++ [34%N] ++ u "product" ++ [34%N] ++ u "]";
   u "article[class*=" ++ [34%N] ++ u "item" ++ [34%N] ++ u "]";
   u "div[class*=" ++ [34%N] ++ u "grid" ++ [34%N] ++ u "]"].

(** The first selector with at least three matches. *)
Fixpoint primary_containers (soup : Tag) (selectors : list str) : list Tag :=
  match selectors with
  | [] => []
  | selector :: rest =>
      let containers := select soup selector in
      if 3 <=? Z.of_nat (length containers) then containers
      else primary_containers soup rest
  end.

(** The body of [for link in all_links]: the parent it appends to
    [potential_products], if any. *)
Definition potential_product `{PyLib} (link : Tag) : option Tag :=
  if any_in [u "#"; u "javascript:"; u "mailto:"] (lower (get link (u "href") []))
  then None
  else
    match find_parent_block link with
    | Some parent =>
        let text := get_text parent in
        if any_in [u "lei"; u "ron"; u "$"; u "€"; u "£"; u ","; u "."] text
           && existsb isdigit text
        then Some parent else None
    | None => None
    end.

(** [list(set(potential_products))]: equal elements are kept once; the
    order of a set is not fixed by Python, first occurrences are kept here. *)
Fixpoint dedup_tags (seen : list str) (l : list Tag) : list Tag :=
  match l with
  | [] => []
  | t :: l' =>
      if in_list (markup t) seen then dedup_tags seen l'
      else t :: dedup_tags (markup t :: seen) l'
  end.

Definition find_containers `{PyLib} (soup : Tag) : list Tag :=
  match primary_containers soup container_selectors with
  | [] => dedup_tags [] (omap potential_product (find_all_a_href soup))
  | containers => containers
  end.

Definition title_selectors : list str :=
  [u "h2 a"; u "h3 a"; u "h4 a"; u "h2"; u "h3"; u "h4";
   u ".product-title"; u ".product-name"; u ".title";
   u "a.product-link"; u "a[title]"; u ".name"].

(** The loop [for selector in title_selectors]; [title] is the value the
    variable holds on entry ([None] at first). The result is the pair
    [(title, title_elem)] after the loop. *)
Fixpoint title_by_selectors (container : Tag) (selectors : list str)
    (title : option str) : option str * option Tag :=
  match selectors with
  | [] => (title, None)
  | selector :: rest =>
      match select_one container selector with
      | Some elem =>
          let t := strip_space (get elem (u "title") []) in
          let t := match t with [] => get_text_strip elem | _ => t end in
          if negb (PyStr.eqb t []) && (len t >? 5) then (Some t, Some elem)
          else title_by_selectors container rest (Some t)
      | None => title_by_selectors container rest title
      end
  end.

(** The loop [for link in links] of the last resort: the first link whose
    text is longer than ten characters. *)
Fixpoint title_by_links (links : list Tag) : option (str * Tag) :=
  match links with
  | [] => None
  | link :: rest =>
      let text := get_text_strip link in
      if len text >? 10 then Some (text, link) else title_by_links rest
  end.

(** [not title] for a variable that holds [None] or a string. *)
Definition falsy (title : option str) : bool :=
  match title with
  | None | Some [] => true
  | Some _ => false
  end.

(** Title extraction, up to the test [if not title: continue]. *)
Definition extract_title (container : Tag) : option str * option Tag :=
  let '(title, title_elem) := title_by_selectors container title_selectors None in
  if falsy title then
    match title_by_links (find_all_a_href container) with
    | Some (text, link) => (Some text, Some link)
    | None => (title, title_elem)
    end
  else (title, title_elem).

(** The first link of the container with an [href] longer than five
    characters that is no fragment, script, mail or phone link. *)
Definition first_product_link `{PyLib} (container : Tag) : option Tag :=
  let link_candidates :=
    List.filter (fun l => len (get l (u "href") []) >? 5)
                (find_all_a_href container) in
  head (List.filter
          (fun l => negb (any_in [u "#"; u "javascript:"; u "mailto:"; u "tel:"]
                            (lower (get l (u "href") []))))
          link_candidates).

(** The element whose [href] gives the product URL. *)
Definition extract_link `{PyLib} (container : Tag) (title_elem : option Tag) : option Tag :=
  match title_elem with
  | Some elem =>
      if PyStr.eqb (name elem) (u "a") then Some elem
      else first_product_link container
  | None => first_product_link container
  end.

Definition price_selectors : list str :=
  [u ".product__info--price-gross"; u ".price"; u ".product-price";
   u "span.price"; u ".price-current"; u "[data-price]";
   (* [class*=...] with the value price in double quotes *)
   u "[class*=" ++ [34%N] ++ u "price" ++ [34%N] ++ u "]";
   u "span[class*=" ++ [34%N] ++ u "price" ++ [34%N] ++ u "]"].

(** [test_price != float('inf') and test_price > 0]. *)
Definition usable (test_price : float) : bool :=
  neb test_price inf && gtb test_price (of_int 0).

(** The price a selected element gives, if any. *)
Definition price_of_elem `{PyLib} (elem : Tag) : option float :=
  let text := get_text_strip elem in
  if negb (PyStr.eqb text []) && negb (has_char (ch "%") text)
     && negb (contains (u "discount") (lower text))
     && negb (contains (u "save") (lower text))
     && negb (contains (u "eco") (lower text))
  then
    let test_price := parse_price text in
    if usable test_price then Some test_price else None
  else None.

(** The price a text node gives in the fallback scan, if any. *)
Definition price_of_text `{PyLib} (text_node : str) : option float :=
  let text := strip_space text_node in
  if existsb isdigit text
     && any_in [u "lei"; u "ron"; u "$"; u "€"; u "£"; u ","] (lower text)
  then
    if negb (has_char (ch "%") text) && negb (contains (u "discount") (lower text))
    then
      let test_price := parse_price text in
      if usable test_price then Some test_price else None
    else None
  else None.

Fixpoint first_some {A B} (f : A -> option B) (l : list A) : option B :=
  match l with
  | [] => None
  | x :: l' => match f x with Some y => Some y | None => first_some f l' end
  end.

(** The value of [price] after both searches ([inf] when none found one). *)
Definition extract_price `{PyLib} (container : Tag) : float :=
  match first_some (fun selector => first_some price_of_elem (select container selector))
                   price_selectors with
  | Some p => p
  | None => default inf (first_some price_of_text (strings container))
  end.

(** The body of [for container in product_containers]: the product it
    appends, if any. A [ValueError] of [urljoin] is caught by the [except]
    of the body, and the container is skipped. *)
Definition product_of_container `{PyLib} (cfg : Config) (container : Tag) : option Product :=
  let '(title, title_elem) := extract_title container in
  match title with
  | None | Some [] => None
  | Some title =>
      match extract_link container title_elem with
      | None => None
      | Some link_elem =>
          match urljoin (base_url cfg) (get link_elem (u "href") []) with
          | None => None
          | Some product_url =>
              let price := extract_price container in
              if eqb price inf then None
              else if leb price (of_int 0) || gtb price (of_int 999999) then None
              else if any_in (excluded_url_patterns cfg) (lower product_url) then None
              else Some {| title := title; price := price; url := product_url |}
          end
      end
  end.

(** [parse_products(url)]. *)
Definition parse_products `{PyLib} (cfg : Config) (page_url : str) : M (list Product) :=
  let* response := make_request page_url default_retries in
  match response with
  | None => ret []
  | Some soup => ret (omap (product_of_container cfg) (find_containers soup))
  end.

(** *** Category scan *)

(** [f"{product['url']}_{product['price']}"]. *)
Definition product_id `{PyLib} (p : Product) : str :=
  url p ++ u "_" ++ float_repr (price p).

(** [send_telegram_alert(msg, parse_mode='Markdown')] for the message built
    from a product: the call is recorded. The function catches what the
    delivery raises and the scan ignores its result. *)
Definition send_telegram_alert (product : Product) (w : World) : World :=
  with_alerts w (product :: alerts w).

(** The loop [for product in filtered_products]; [found] is
    [products_found] on entry. *)
Fixpoint notify_new `{PyLib} (filtered : list Product) (found : nat) (w : World) : nat * World :=
  match filtered with
  | [] => (found, w)
  | product :: rest =>
      let id := product_id product in
      if bool_decide (id ∈ seen_products w) then notify_new rest found w
      else
        let w1 := with_seen w ({[id]} ∪ seen_products w) in
        notify_new rest (S found) (send_telegram_alert product w1)
  end.

(** [[p for p in products if p['price'] <= max_price]]. *)
Definition filter_products (cfg : Config) (products : list Product) : list Product :=
  List.filter (fun p => leb (price p) (max_price cfg)) products.

(** The loop [for page_url in pages] inside the [try] block, with the
    counters on entry; the flag of the result tells whether an exception
    reached the [except] clause. *)
Fixpoint scan_pages `{PyLib} (cfg : Config) (pages : list str) (checked found : nat)
    (w : World) : (nat * nat * bool) * World :=
  match pages with
  | [] => ((checked, found, false), w)
  | page_url :: rest =>
      match parse_products cfg page_url w with
      | (Raised, w') => ((checked, found, true), w')
      | (Ok products, w') =>
          let filtered_products := filter_products cfg products in
          let checked' := (checked + length filtered_products)%nat in
          let '(found', w'') := notify_new filtered_products found w' in
          scan_pages cfg rest checked' found' w''
      end
  end.

(** [scan_category(category_url)]: the triple
    [(products_checked, products_found, had_errors)]. *)
Definition scan_category `{PyLib} (cfg : Config) (category_url : str)
    (w : World) : (nat * nat * bool) * World :=
  match get_all_pages category_url w with
  | (Raised, w') => ((0%nat, 0%nat, true), w')
  | (Ok pages, w') => scan_pages cfg pages 0 0 w'
  end.

(** *** Orchestrator *)

(** What the loop over completed tasks does with one result. *)
Definition aggregate (totals : nat * nat * nat) (outcome : nat * nat * bool) : nat * nat * nat :=
  let '(total_checked, total_found, categories_with_errors) := totals in
  let '(checked, found, had_errors) := outcome in
  ((total_checked + checked)%nat, (total_found + found)%nat,
   if had_errors then S categories_with_errors else categories_with_errors).

(** The category tasks, run one after the other in the order they were
    submitted. *)
Fixpoint scan_categories `{PyLib} (cfg : Config) (categories : list str)
    (totals : nat * nat * nat) (w : World) : (nat * nat * nat) * World :=
  match categories with
  | [] => (totals, w)
  | category :: rest =>
      let '(outcome, w') := scan_category cfg category w in
      scan_categories cfg rest (aggregate totals outcome) w'
  end.

(** [scan_website()]. *)
Definition scan_website `{PyLib} (cfg : Config) : M (nat * nat * nat) :=
  let* categories := get_all_categories cfg (base_url cfg) in
  match categories with
  | [] => ret (0%nat, 0%nat, 0%nat)
  | _ => fun w =>
      let '(totals, w') := scan_categories cfg categories (0%nat, 0%nat, 0%nat) w in
      (Ok totals, w')
  end.

(** *** Dedup Store persistence *)

(** A text file opened with [encoding='utf-8'] takes every code point but
    the surrogates. *)
Definition is_surrogate (c : N) : bool := ((55296 <=? c) && (c <=? 57343))%N.
Definition encodable (s : str) : bool := forallb (fun c => negb (is_surrogate c)) s.

(** [f.write(chunk)] for the chunks in turn; the first one that cannot be
    encoded raises, and what was written before stays in the file. *)
Fixpoint write_chunks (written : str) (cs : list str) : str :=
  match cs with
  | [] => written
  | c :: rest =>
      if encodable c then write_chunks (written ++ c) rest else written
  end.

(** [save_seen_products()], where [order] is what [list(seen_products)]
    gives. *)
Definition save_seen_products_as (order : list str) (w : World) : World :=
  with_file w (Some (write_chunks [] (Json.chunks order))).

Definition save_seen_products (w : World) : World :=
  save_seen_products_as (elements (seen_products w)) w.

(** [load_seen_products()]. *)
Definition load_seen_products (w : World) : World :=
  match seen_file w with
  | None => w
  | Some text =>
      match Json.loads_strings text with
      | Some keys => with_seen w (list_to_set keys)
      | None => with_seen w ∅
      end
  end.

End Monitor.

Import PyFloat Price Monitor.

(** ** Notions used in the statements *)

(** A text without ASCII letters. *)
Definition letter_free (s : str) : Prop :=
  Forall (fun c => is_ascii_letter c = false) s.



(** The test [if href and href not in ['#', 'javascript:void(0)']] on the
    [href] of a pagination link. *)
Definition page_href (href : str) : bool :=
  negb (PyStr.eqb href []) && negb (in_list href [u "#"; u "javascript:void(0)"]).

(** A pagination link at which the loop ends early: its [href] passes the
    test and [urljoin] raises on it. *)
Definition stops_pagination `{PyLib} (category_url : str) (link : Tag) : Prop :=
  page_href (get link (u "href") []) = true /\
  urljoin category_url (get link (u "href") []) = None.

(** Two states of the world that differ at most in the count of requests. *)
Definition same_but_requests (w w' : World) : Prop :=
  net w' = net w /\ seen_products w' = seen_products w /\
  alerts w' = alerts w /\ seen_file w' = seen_file w.

(** A site that answers a URL the same way at every request. *)
Definition static (network : nat -> str -> attempt) : Prop :=
  forall n m x, network n x = network m x.

(** What the extractor guarantees of a product. *)
Definition plausible `{PyLib} (cfg : Config) (p : Product) : Prop :=
  title p <> [] /\
  (exists m e, price p = S754_finite false m e) /\
  leb (price p) (of_int 999999) = true /\
  any_in (excluded_url_patterns cfg) (lower (url p)) = false.

(** The three components of a [ScanOutcome]. *)
Definition checked_of (o : nat * nat * bool) : nat := fst (fst o).
Definition found_of (o : nat * nat * bool) : nat := snd (fst o).
Definition had_errors_of (o : nat * nat * bool) : bool := snd o.

(** The keys at the front of a list that a UTF-8 file can hold. *)
Fixpoint encodable_prefix (keys : list str) : list str :=
  match keys with
  | [] => []
  | k :: rest => if encodable k then k :: encodable_prefix rest else []
  end.

(** A price text with the roles of the dot and the comma exchanged: the
    European notation of a number written the US way, and back. *)
Definition swap_separator (c : N) : N :=
  if (c =? dot)%N then comma else if (c =? comma)%N then dot else c.

Definition swap_separators (s : str) : str := map swap_separator s.

(** The rule of the Category Discoverer as the specification words it:
    the links of the first selector with any matches, and nothing from later
    selectors. *)
Fixpoint first_match_links (soup : Tag) (selectors : list str) : list Tag :=
  match selectors with
  | [] => []
  | selector :: rest =>
      match select soup selector with
      | [] => first_match_links soup rest
      | links => links
      end
  end.

Definition first_match_categories `{PyLib} (cfg : Config) (base : str) (soup : Tag) : gset (list N) :=
  list_to_set (omap (fun link => match category_of_link cfg base link with
                                 | Ok category => category
                                 | Raised => None
                                 end)
                    (first_match_links soup menu_selectors)).

(** The last resort of the title search as the specification words it:
    the longest text among the links whose text exceeds ten characters. *)
Definition longest_link_text (links : list Tag) : option str :=
  fold_left
    (fun best link =>
       let text := get_text_strip link in
       if len text >? 10 then
         match best with
         | Some b => if len text >? len b then Some text else best
         | None => Some text
         end
       else best)
    links None.

(** ** The library on ASCII text

    The closed examples below run on ASCII text, absolute URLs and a few
    prices; on these the library functions are as follows. *)

Definition example_repr (x : float) : str :=
  if eqb x (of_ratio false 999 100) then u "9.99"
  else if eqb x (of_ratio false 85 10) then u "8.5"
  else if eqb x (of_ratio false 5 1) then u "5.0"
  else u "?".

#[local] Instance example_lib : PyLib := {|
  unicode_decimal := fun _ => None;
  unicode_isdigit := fun _ => false;
  unicode_lower := fun s => s;
  (* [href] is an absolute URL, or one whose host opens a bracket that is
     never closed *)
  urljoin := fun base href =>
    if contains (u "//[") href && negb (has_char (ch "]") href) then None
    else Some href;
  float_repr := example_repr
|}.

(** ** Fixtures: a small shop *)

(** A link with the given [href] and text. *)
Definition anchor (href text : str) : Tag :=
  {| name := u "a"; attrs := [(u "href", href)];
     get_text := text; get_text_strip := text; strings := [text];
     select := fun _ => []; find_all_a_href := []; find_parent_block := None;
     markup := u "<a href=" ++ href ++ u ">" ++ text ++ u "</a>" |}.

(** An element that answers [select] from a table and holds the given
    links. *)
Definition element (table : list (str * list Tag)) (links : list Tag) : Tag :=
  {| name := u "div"; attrs := [];
     get_text := []; get_text_strip := []; strings := [];
     select := fun selector =>
       default [] (snd <$> List.find (fun e => PyStr.eqb (fst e) selector) table);
     find_all_a_href := links; find_parent_block := None;
     markup := u "<div>" ++ flat_map markup links ++ u "</div>" |}.

(** A home page whose navigation bar links to the coffee category and
    whose menu container links to the tea category. *)
Definition home_page : Tag :=
  element [(u "nav a", [anchor (u "https://shop.test/coffee") (u "Coffee")]);
           (u ".menu a", [anchor (u "https://shop.test/tea") (u "Tea")])] [].

(** The n-th GET finds the home page, whatever the URL. *)
Definition home_net : nat -> str -> attempt := fun _ _ => Served home_page.

Definition home_world : World :=
  {| net := home_net; requests_made := 0; seen_products := ∅;
     alerts := []; seen_file := None |}.

(** A product container none of whose title selectors match, with two
    links. *)
Definition two_link_container : Tag :=
  element [] [anchor (u "https://shop.test/p/1") (u "Buy it today");
              anchor (u "https://shop.test/p/1") (u "Stainless steel espresso machine")].

Definition threshold_cfg : Config :=
  {| base_url := u "https://shop.test"; max_price := of_ratio false 10 1;
     excluded_url_patterns := [u "gift-card"; u "voucher"; u "gift-certificate"] |}.


Definition quiet_net : nat -> str -> attempt := fun _ _ => RequestError.

Definition example_store : World :=
  {| net := quiet_net; requests_made := 0;
     seen_products := {[ u "https://shop.test/a_9.99" ]} ∪ {[ u "https://shop.test/b_5.0" ]};
     alerts := []; seen_file := None |}.

Definition coffee : str := u "https://shop.test/coffee".
Definition tea : str := u "https://shop.test/tea".


(** A product container whose heading is too short to be a title and whose
    only link has a long text. *)
Definition short_heading_container : Tag :=
  element [(u "h2", [anchor [] (u "Sale")])]
          [anchor (u "https://shop.test/p/2") (u "Hand grinder with ceramic burrs")].

(** ** Further fixtures *)

(** A network whose first two answers are failures and which then serves
    the home page. *)
Definition flaky_net : nat -> str -> attempt :=
  fun n _ => if (n <? 2)%nat then RequestError else Served home_page.

Definition flaky_world : World :=
  {| net := flaky_net; requests_made := 0; seen_products := ∅;
     alerts := []; seen_file := None |}.

(** A network on which every attempt raises something that is no
    [RequestException]. *)
Definition broken_net : nat -> str -> attempt := fun _ _ => OtherError.

Definition broken_world : World :=
  {| net := broken_net; requests_made := 0; seen_products := ∅;
     alerts := []; seen_file := None |}.

(** A category page with an empty pagination region, a pager that links
    to page 2 twice and to a fragment, and a next link that a later selector
    would find. *)
Definition pager_page : Tag :=
  element
    [(u ".pager a",
      [anchor (u "https://shop.test/coffee?page=2") (u "2");
       anchor (u "#") (u "top");
       anchor (u "https://shop.test/coffee?page=2") (u "next")]);
     ([97; 91; 114; 101; 108; 61; 34; 110; 101; 120; 116; 34; 93]%N,
      [anchor (u "https://shop.test/coffee?page=3") (u "3")])]
    [].

Definition pager_world : World :=
  {| net := fun _ _ => Served pager_page; requests_made := 0;
     seen_products := ∅; alerts := []; seen_file := None |}.

(** A shop whose coffee category does not answer while every other URL
    serves the home page. *)
Definition coffee_down_net : nat -> str -> attempt :=
  fun _ x => if PyStr.eqb x (sorted_url_of coffee) then RequestError
             else Served home_page.

Definition coffee_down_world : World :=
  {| net := coffee_down_net; requests_made := 0; seen_products := ∅;
     alerts := []; seen_file := None |}.

(** A home page whose menu container holds, after the tea link, a link
    with a host that opens a bracket and never closes it. *)
Definition bad_link_home : Tag :=
  element [(u "nav a", [anchor (u "https://shop.test/coffee") (u "Coffee")]);
           (u ".menu a", [anchor (u "https://shop.test/tea") (u "Tea");
                          anchor (u "http://[::1") (u "Router")])] [].

Definition bad_link_world : World :=
  {| net := fun _ _ => Served bad_link_home; requests_made := 0;
     seen_products := ∅; alerts := []; seen_file := None |}.

(** A pager with such a link between page 2 and page 3. *)
Definition stuck_pager_page : Tag :=
  element
    [(u ".pager a",
      [anchor (u "https://shop.test/coffee?page=2") (u "2");
       anchor (u "http://[::1") (u "?");
       anchor (u "https://shop.test/coffee?page=3") (u "3")])]
    [].

Definition stuck_pager_world : World :=
  {| net := fun _ _ => Served stuck_pager_page; requests_made := 0;
     seen_products := ∅; alerts := []; seen_file := None |}.

(** A listing with three product containers: cups at 9,99 lei, mugs at
    8.50 and a pot at 12.00. *)
Definition listed (href name_ price_text : str) : Tag :=
  element [(u "h2 a", [anchor href name_]);
           (u ".price", [anchor [] price_text])]
          [anchor href name_].

Definition listing_page : Tag :=
  element
    [(u ".product",
      [listed (u "https://shop.test/p/cups") (u "Espresso cups, set of two") (u "9,99 lei");
       listed (u "https://shop.test/p/mugs") (u "Stoneware mugs") (u "8.50 lei");
       listed (u "https://shop.test/p/pot") (u "Moka pot, six cups") (u "12.00 lei")])]
    [].

Definition listing_world : World :=
  {| net := fun _ _ => Served listing_page; requests_made := 0;
     seen_products := ∅; alerts := []; seen_file := None |}.

(** * Properties *)

(** Case analysis on every conditional of the goal. *)
Ltac split_ifs :=
  repeat match goal with
         | |- context [if ?b then _ else _] => destruct b
         end.

(** ** Floats *)

(** [float] rounds to the nearest binary64 value, ties to even; it takes
    underscores between digits and decimal digits of other scripts, and
    gives zero and infinity where the value leaves the range. *)
Section FloatExamples.
Context `{PyLib}.

Example float_9_99 :
  float_of_str (u "9.99") = Some (S754_finite false 5623870034678907 (-49)).
Proof. vm_compute. reflexivity. Qed.

Example float_tenth :
  float_of_str (u "0.1") = Some (S754_finite false 7205759403792794 (-56)).
Proof. vm_compute. reflexivity. Qed.

Example float_underscore :
  float_of_str (u "1_0.5") = float_of_str (u "10.5") /\
  float_of_str (u "1__0") = None /\ float_of_str (u "_1") = None.
Proof. repeat split; vm_compute; reflexivity. Qed.

Example float_tie_to_even :
  float_of_str (u "999999.00000000001") = Some (of_int 999999).
Proof. vm_compute. reflexivity. Qed.

Example float_out_of_range :
  float_of_str (u "1e-400") = Some (S754_zero false) /\
  float_of_str (u "1e400") = Some inf.
Proof. split; vm_compute; reflexivity. Qed.

Example float_rejects :
  float_of_str (u "") = None /\ float_of_str (u ".") = None /\
  float_of_str (u "1.2.3") = None /\ float_of_str (u "1,5") = None.
Proof. repeat split; vm_compute; reflexivity. Qed.

End FloatExamples.

(** Rounding never yields a NaN. *)

Section Rounding.

Lemma shr_1_nonneg mrs : 0 <= shr_m mrs -> 0 <= shr_m (shr_1 mrs).
Proof.
  destruct mrs as [m r s]; simpl.
  destruct m as [|p|p]; simpl; try lia; destruct p; simpl; lia.
Qed.

Lemma iter_pos_shr_1_nonneg n mrs :
  0 <= shr_m mrs -> 0 <= shr_m (SpecFloat.iter_pos shr_1 n mrs).
Proof.
  revert mrs; induction n as [n IH|n IH|]; intros mrs Hm; simpl.
  - apply IH, IH. by apply shr_1_nonneg.
  - by apply IH, IH.
  - by apply shr_1_nonneg.
Qed.

Lemma shr_record_of_loc_m m l : shr_m (shr_record_of_loc m l) = m.
Proof. destruct l as [|[]]; reflexivity. Qed.

Lemma shr_fexp_nonneg m e l :
  0 <= m -> 0 <= shr_m (fst (shr_fexp prec emax m e l)).
Proof.
  intros Hm. unfold shr_fexp, shr.
  destruct (_ - e) as [|n|n]; simpl; rewrite ?shr_record_of_loc_m; try done.
  apply iter_pos_shr_1_nonneg. by rewrite shr_record_of_loc_m.
Qed.

Lemma round_nearest_even_nonneg m l : 0 <= m -> 0 <= round_nearest_even m l.
Proof.
  intros Hm. unfold round_nearest_even.
  destruct l as [|[]]; try lia. destruct (Z.even m); lia.
Qed.

Lemma binary_round_aux_not_nan sx mx ex lx :
  0 <= mx -> binary_round_aux prec emax sx mx ex lx <> S754_nan.
Proof.
  intros Hm. unfold binary_round_aux.
  pose proof (shr_fexp_nonneg mx ex lx Hm) as H1.
  destruct (shr_fexp prec emax mx ex lx) as [mrs' e']. simpl in H1.
  pose proof (shr_fexp_nonneg
                (round_nearest_even (shr_m mrs') (loc_of_shr_record mrs'))
                e' loc_Exact (round_nearest_even_nonneg _ _ H1)) as H2.
  destruct (shr_fexp prec emax _ e' loc_Exact) as [mrs'' e'']. simpl in H2.
  destruct (shr_m mrs'') as [|m|m]; try done; try lia.
  by destruct (e'' <=? emax - prec).
Qed.

Lemma of_ratio_not_nan neg n d : 0 <= n -> 0 < d -> of_ratio neg n d <> nan.
Proof.
  intros Hn Hd. unfold of_ratio.
  destruct n as [|pn|pn]; [done| |lia]. destruct d as [|pd|pd]; [lia| |lia].
  unfold SFdiv.
  destruct (SFdiv_core_binary prec emax (Z.pos pn) 0 (Z.pos pd) 0)
    as [[mz ez] lz] eqn:E.
  apply binary_round_aux_not_nan.
  unfold SFdiv_core_binary in E.
  match type of E with
  | (let '(q, r) := Z.div_eucl ?a ?b in _) = _ =>
      pose proof (Z.div_pos a b) as Hq; unfold Z.div in Hq;
      destruct (Z.div_eucl a b) as [q r] eqn:Eq
  end.
  inversion E; subst. apply Hq; [|lia].
  destruct (_ - _ - _) as [|s|s]; try lia.
  apply Z.shiftl_nonneg. lia.
Qed.

End Rounding.

(** ** [float] of a text without letters is a number *)

Section LetterFree.
Context `{PyLib}.

Lemma strip_currency_letter_free s : letter_free (strip_currency s).
Proof.
  unfold letter_free, strip_currency. apply List.Forall_forall.
  intros c Hc. apply List.filter_In in Hc as [_ Hc].
  unfold currency_class in Hc. apply negb_true_iff in Hc.
  repeat (apply orb_false_elim in Hc as [Hc ?]).
  unfold is_ascii_letter. by rewrite Hc.
Qed.

Lemma replace_letter_free c t s :
  letter_free t -> letter_free s -> letter_free (replace c t s).
Proof.
  intros Ht Hs. unfold letter_free, replace in *.
  induction Hs as [|x s Hx Hs IH]; simpl; [constructor|].
  apply Forall_app. split; [|done].
  destruct (N.eqb x c); [done|]. by constructor.
Qed.

Lemma normalize_separators_letter_free s :
  letter_free s -> letter_free (normalize_separators s).
Proof.
  intros Hs. unfold normalize_separators.
  assert (letter_free (u ".")) by (repeat constructor).
  assert (letter_free []) by constructor.
  split_ifs; auto using replace_letter_free.
Qed.

Lemma digit_not_letter (d : fin 10) :
  is_ascii_letter (48 + N.of_nat (fin_to_nat d)) = false.
Proof.
  pose proof (fin_to_nat_lt d) as Hd.
  unfold is_ascii_letter.
  repeat match goal with
         | |- context [(?a <=? ?b)%N] => destruct (N.leb_spec a b)
         end; simpl; try reflexivity; lia.
Qed.

Lemma transform_letter_free s :
  letter_free s -> letter_free (transform_decimal_and_space s).
Proof.
  unfold letter_free. induction 1 as [|c s Hc Hs IH]; simpl; [constructor|].
  destruct (c <? 127)%N; [by constructor|].
  destruct (is_space c); [by constructor|].
  destruct (unicode_decimal c) as [d|].
  - constructor; [apply digit_not_letter | done].
  - by repeat constructor.
Qed.

Lemma to_ascii_letter_free s : letter_free s -> letter_free (to_ascii s).
Proof.
  intros Hs. unfold to_ascii.
  destruct (is_ascii s); [done|]. by apply transform_letter_free.
Qed.

Lemma strip_underscores_letter_free s : forall prev t,
  strip_underscores prev s = Some t -> letter_free s -> letter_free t.
Proof.
  unfold letter_free.
  induction s as [|c s IH]; intros prev t Ht Hs; simpl in Ht.
  - destruct (prev =? 95)%N; [done|]. injection Ht as <-. constructor.
  - apply Forall_cons in Hs as [Hc Hs].
    destruct (c =? 95)%N.
    + destruct (is_ascii_digit prev); [eauto | done].
    + destruct ((prev =? 95)%N && negb (is_ascii_digit c)); [done|].
      destruct (strip_underscores c s) as [t'|] eqn:E; [|done].
      injection Ht as <-. constructor; eauto.
Qed.

Lemma lstrip_letter_free s : letter_free s -> letter_free (lstrip s).
Proof.
  unfold letter_free. induction 1 as [|c s Hc Hs IH]; simpl; [constructor|].
  destruct (c_isspace c); [done | by constructor].
Qed.

Lemma strip_letter_free s : letter_free s -> letter_free (strip s).
Proof.
  intros Hs. unfold strip, letter_free.
  apply Forall_rev, lstrip_letter_free, Forall_rev, lstrip_letter_free, Hs.
Qed.

Lemma lower_keeps_non_letters c :
  is_ascii_letter c = false -> is_ascii_letter (ascii_lower_char c) = false.
Proof.
  intros Hc. unfold ascii_lower_char.
  destruct ((65 <=? c)%N && (c <=? 90)%N) eqn:E; [|done].
  unfold is_ascii_letter in Hc. rewrite E in Hc. done.
Qed.

Lemma take_sign_letter_free s :
  letter_free s -> letter_free (snd (take_sign s)).
Proof.
  intros Hs. unfold take_sign.
  destruct s as [|c s']; [done|].
  apply Forall_cons in Hs as [Hc Hs'].
  destruct c as [|p]; simpl; [by constructor|].
  repeat (destruct p as [p|p|]; simpl; try by constructor); done.
Qed.

Lemma parse_inf_or_nan_letter_free s :
  letter_free s -> parse_inf_or_nan s = None.
Proof.
  intros Hs. unfold parse_inf_or_nan.
  pose proof (take_sign_letter_free s Hs) as Hs1.
  destruct (take_sign s) as [neg s1]. simpl in Hs1.
  assert (forall w, (exists c w', w = c :: w' /\ is_ascii_letter c = true) ->
                    PyStr.eqb (map ascii_lower_char s1) w = false) as Hne.
  { intros w (c & w' & -> & Hc). unfold PyStr.eqb.
    apply bool_decide_eq_false. intros Heq.
    destruct s1 as [|a s1']; [done|]. simpl in Heq.
    apply Forall_cons in Hs1 as [Ha _].
    apply lower_keeps_non_letters in Ha. congruence. }
  rewrite !Hne; [done | | | ]; eexists _, _; split; reflexivity.
Qed.

Lemma span_digits_digits s :
  Forall (fun c => is_ascii_digit c = true) (fst (span_digits s)).
Proof.
  induction s as [|c s IH]; simpl; [constructor|].
  destruct (is_ascii_digit c) eqn:E; [|constructor].
  destruct (span_digits s) as [ds r]. simpl in *. by constructor.
Qed.

Lemma digits_fold_nonneg ds : forall acc,
  0 <= acc -> Forall (fun c => is_ascii_digit c = true) ds ->
  0 <= fold_left (fun a c => 10 * a + (Z.of_N c - 48)) ds acc.
Proof.
  induction ds as [|c ds IH]; intros acc Ha Hds; simpl; [done|].
  apply Forall_cons in Hds as [Hc Hds]. apply IH; [|done].
  unfold is_ascii_digit in Hc. apply andb_true_iff in Hc as [Hc _].
  apply N.leb_le in Hc. lia.
Qed.

Lemma digits_value_nonneg ds :
  Forall (fun c => is_ascii_digit c = true) ds -> 0 <= digits_value ds.
Proof. intros Hds. by apply digits_fold_nonneg. Qed.

Lemma parse_decimal_not_nan s p : parse_decimal s = Some p -> p <> nan.
Proof.
  unfold parse_decimal.
  destruct (take_sign s) as [neg s1].
  pose proof (span_digits_digits s1) as Hip.
  destruct (span_digits s1) as [ip s2]. simpl in Hip.
  assert (exists fp s3,
             match s2 with
             | 46%N :: r => span_digits r
             | _ => ([], s2)
             end = (fp, s3) /\ Forall (fun c => is_ascii_digit c = true) fp)
    as (fp & s3 & -> & Hfp).
  { destruct s2 as [|c r]; [by eexists _, _|].
    destruct (N.eq_dec c 46%N) as [->|Hc].
    - pose proof (span_digits_digits r) as Hr.
      destruct (span_digits r) as [fp s3]. by eexists _, _.
    - exists [], (c :: r). split; [|constructor].
      destruct c as [|q]; [done|].
      repeat (destruct q as [q|q|]; try done). }
  assert (Forall (fun c => is_ascii_digit c = true) (ip ++ fp)) as Hds
    by (by apply Forall_app).
  destruct (ip ++ fp) as [|d ds] eqn:E; [done|].
  destruct (parse_exponent s3) as [e|]; [|done]. simpl.
  intros [= <-]. apply of_ratio_not_nan.
  - apply Z.mul_nonneg_nonneg; [by apply digits_value_nonneg|].
    apply Z.pow_nonneg. lia.
  - apply Z.pow_pos_nonneg; lia.
Qed.

(** What [float] gives for a text without letters is never a NaN. *)
Lemma float_of_str_letter_free s p :
  letter_free s -> float_of_str s = Some p -> p <> nan.
Proof.
  intros Hs. unfold float_of_str.
  destruct (strip_underscores 0 (to_ascii s)) as [t|] eqn:Et; [|done]. simpl.
  assert (letter_free (strip t)) as Ht.
  { eapply strip_letter_free, strip_underscores_letter_free; [done|].
    by apply to_ascii_letter_free. }
  rewrite (parse_inf_or_nan_letter_free _ Ht).
  apply parse_decimal_not_nan.
Qed.

End LetterFree.

(** ** The price parser *)

Section PriceFacts.
Context `{PyLib}.

Lemma positive_not_lt_le mc ec m e :
  ltb (S754_finite false mc ec) (S754_finite false m e) = false ->
  leb (S754_finite false m e) (S754_finite false mc ec) = true.
Proof.
  unfold ltb, leb, SFltb, SFleb, SFcompare.
  rewrite (Z.compare_antisym ec e).
  destruct (ec ?= e) eqn:E; simpl; try done.
  change (Pos.compare_cont Eq m mc) with (m ?= mc)%positive.
  change (Pos.compare_cont Eq mc m) with (mc ?= m)%positive.
  rewrite (Pos.compare_antisym mc m).
  by destruct (mc ?= m)%positive.
Qed.

(** C10. [parse_price] is a total function on strings; what it returns is
    either the sentinel [inf] or a finite float that is greater than 0 and
    at most 999999. The empty string gives the sentinel, and so does every
    text whose remainder, after the currency characters are removed and the
    separators rewritten, [float] does not accept. *)
Theorem parse_price_total (s : str) :
  (parse_price s = inf \/
   exists m e, parse_price s = S754_finite false m e /\
               ltb (of_int 0) (parse_price s) = true /\
               leb (parse_price s) (of_int 999999) = true) /\
  parse_price [] = inf /\
  (float_of_str (normalize_separators (strip_currency s)) = None ->
   parse_price s = inf).
Proof.
  split; [|split; [reflexivity|]].
  - unfold parse_price. destruct s as [|c s]; [by left|].
    destruct (has_char _ _); [by left|].
    set (t := normalize_separators (strip_currency (c :: s))).
    assert (letter_free t) as Ht
      by apply normalize_separators_letter_free, strip_currency_letter_free.
    destruct (float_of_str t) as [p|] eqn:E; [|by left].
    pose proof (float_of_str_letter_free t p Ht E) as Hnan.
    destruct (leb p (of_int 0) || gtb p (of_int 999999)) eqn:B; [by left|right].
    apply orb_false_elim in B as [B0 B1].
    destruct p as [sg|sg| |sg m e]; try done.
    + by destruct sg.
    + destruct sg; [done|]. exists m, e. split; [done|]. split; [done|].
      apply positive_not_lt_le. exact B1.
  - intros E. unfold parse_price. destruct s as [|c s]; [done|].
    destruct (has_char _ _); [done|]. by rewrite E.
Qed.

(** C1. The test vectors on the code: six of the seven come out as the
    specification lists them; the text with a single dot and three digits
    after it is read as the decimal 1.999, not as 1999. *)
Theorem parse_price_vectors :
  parse_price (u "1.999,00") = of_ratio false 1999 1 /\
  parse_price (u "1,999.00") = of_ratio false 1999 1 /\
  parse_price (u "9,99") = of_ratio false 999 100 /\
  parse_price (u "15% off") = inf /\
  parse_price (u "0,00") = inf /\
  parse_price (u "1500000") = inf /\
  parse_price (u "1.999") = of_ratio false 1999 1000 /\
  parse_price (u "1.999") <> of_ratio false 1999 1.
Proof. repeat split; try (vm_compute; reflexivity). vm_compute. discriminate. Qed.

End PriceFacts.

(** A text that holds letters only leaves nothing to read. *)
Lemma parse_price_total_witness :
  parse_price (u "lei") = inf.
Proof.
  apply (proj2 (proj2 (parse_price_total (u "lei")))).
  vm_compute. reflexivity.
Defined.

(** ** JSON: decoding what the encoder wrote *)

Section JsonFacts.
Import Json.

Lemma run_app st s t :
  run st (s ++ t) = st' ← run st s; run st' t.
Proof.
  revert st. induction s as [|c s IH]; intros st; simpl; [done|].
  destruct (step st c) as [st'|]; simpl; [apply IH | done].
Qed.

Lemma run_control_escape acc cur c :
  (c < 32)%N ->
  run (InString acc cur None)
      (u "\u00" ++ [hex_digit (c / 16); hex_digit (c mod 16)])
  = Some (InString acc (c :: cur) None).
Proof.
  intros Hc. destruct c as [|p]; [reflexivity|].
  repeat (destruct p as [p|p|]; try reflexivity; try lia).
Qed.

Lemma run_escape_char acc cur c :
  run (InString acc cur None) (escape_char c)
  = Some (InString acc (c :: cur) None).
Proof.
  unfold escape_char.
  repeat match goal with
         | |- context [(c =? ?k)%N] =>
             destruct (N.eqb_spec c k); [subst; reflexivity|]
         end.
  destruct (N.ltb_spec c 32); [by apply run_control_escape|].
  simpl.
  repeat match goal with
         | |- context [(c =? ?k)%N] =>
             destruct (N.eqb_spec c k); [done|]
         end.
  destruct (N.ltb_spec c 32); [lia | done].
Qed.

Lemma run_escaped acc s : forall cur,
  run (InString acc cur None) (flat_map escape_char s)
  = Some (InString acc (rev s ++ cur) None).
Proof.
  induction s as [|c s IH]; intros cur; simpl; [done|].
  rewrite run_app, run_escape_char. simpl.
  rewrite IH. by rewrite <- app_assoc.
Qed.

Lemma run_string_body acc s :
  run (InString acc [] None) (flat_map escape_char s ++ [34%N])
  = Some (AfterString (s :: acc)).
Proof.
  rewrite run_app, run_escaped. simpl.
  by rewrite app_nil_r, rev_involutive.
Qed.

Lemma run_next_item acc k :
  run (AfterString acc) ((44%N :: newline_indent) ++ encode_string k)
  = Some (AfterString (k :: acc)).
Proof. exact (run_string_body acc k). Qed.

Lemma run_first_item k :
  run Start ((91%N :: newline_indent) ++ encode_string k)
  = Some (AfterString [k]).
Proof. exact (run_string_body [] k). Qed.

Lemma run_items l : forall acc,
  run (AfterString acc) (concat (item_chunks false l))
  = Some (AfterString (rev l ++ acc)).
Proof.
  induction l as [|k l IH]; intros acc; [done|].
  cbn [item_chunks concat]. rewrite run_app, run_next_item. simpl.
  rewrite IH. by rewrite <- app_assoc.
Qed.

(** Decoding the text written for a list of strings gives the list back. *)
Lemma loads_dumps l : loads_strings (dumps l) = Some l.
Proof.
  unfold loads_strings, dumps, chunks.
  destruct l as [|k l]; [reflexivity|].
  cbn [item_chunks]. rewrite concat_app. cbn [concat].
  rewrite 2!run_app, run_first_item. simpl.
  rewrite run_items. simpl.
  by rewrite rev_app_distr, rev_involutive.
Qed.

End JsonFacts.

(** ** The persisted dedup store *)

Section StoreFacts.
Import Json.

Lemma encodable_app s t :
  encodable (s ++ t) = encodable s && encodable t.
Proof. apply forallb_app. Qed.

Lemma encodable_escape_char c :
  is_surrogate c = false -> encodable (escape_char c) = true.
Proof.
  intros Hc. unfold escape_char.
  repeat match goal with
         | |- context [(c =? ?k)%N] => destruct (c =? k)%N; [reflexivity|]
         end.
  destruct (N.ltb_spec c 32) as [Hlt|_].
  - destruct c as [|p]; [reflexivity|].
    repeat (destruct p as [p|p|]; try reflexivity; try lia).
  - simpl. by rewrite Hc.
Qed.

Lemma encodable_escaped s :
  encodable s = true -> encodable (flat_map escape_char s) = true.
Proof.
  induction s as [|c s IH]; simpl; [done|].
  intros [Hc Hs]%andb_true_iff. apply negb_true_iff in Hc.
  rewrite encodable_app, encodable_escape_char, IH; done.
Qed.

Lemma encodable_encode_string s :
  encodable s = true -> encodable (encode_string s) = true.
Proof.
  intros Hs. unfold encode_string.
  change (34%N :: flat_map escape_char s ++ [34%N])
    with ([34%N] ++ flat_map escape_char s ++ [34%N]).
  by rewrite !encodable_app, encodable_escaped.
Qed.

Lemma item_chunks_encodable l : forall first,
  Forall (fun k => encodable k = true) l ->
  Forall (fun c => encodable c = true) (item_chunks first l).
Proof.
  induction l as [|k l IH]; intros first Hl; simpl; [constructor|].
  apply Forall_cons in Hl as [Hk Hl]. constructor; [|by apply IH].
  rewrite encodable_app, encodable_encode_string by done.
  by destruct first.
Qed.

Lemma chunks_encodable l :
  Forall (fun k => encodable k = true) l ->
  Forall (fun c => encodable c = true) (chunks l).
Proof.
  intros Hl. unfold chunks. destruct l as [|k l]; [by repeat constructor|].
  apply Forall_app. split; [by apply item_chunks_encodable|].
  by repeat constructor.
Qed.

Lemma write_chunks_all cs : forall written,
  Forall (fun c => encodable c = true) cs ->
  write_chunks written cs = written ++ concat cs.
Proof.
  induction cs as [|c cs IH]; intros written Hcs; simpl.
  - by rewrite app_nil_r.
  - apply Forall_cons in Hcs as [Hc Hcs].
    rewrite Hc, IH by done. by rewrite <- app_assoc.
Qed.

(** The text written for encodable keys is read back as the same set. *)
Lemma load_after_save (w : World) (order : list str) :
  Forall (fun k => encodable k = true) order ->
  seen_products (load_seen_products (save_seen_products_as order w))
  = list_to_set order.
Proof.
  intros Henc.
  unfold load_seen_products, save_seen_products_as. simpl.
  rewrite write_chunks_all by by apply chunks_encodable.
  change ([] ++ concat (chunks order)) with (dumps order).
  by rewrite loads_dumps.
Qed.

(** C7, as amended. Saving the dedup store and loading it back gives the
    same set of keys, whatever the order in which [list(seen_products)]
    presents them, for keys that a UTF-8 text file can hold (no surrogate
    code points). *)
Theorem save_load_roundtrip (w : World) (order : list str) :
  (forall k, k ∈ order <-> k ∈ seen_products w) ->
  Forall (fun k => encodable k = true) order ->
  seen_products (load_seen_products (save_seen_products_as order w))
  = seen_products w.
Proof.
  intros Horder Henc. rewrite load_after_save by done.
  apply set_eq. intros k. rewrite elem_of_list_to_set. apply Horder.
Qed.

(** The same for the order that [elements] gives. *)
Corollary store_roundtrip_elements (w : World) :
  set_Forall (fun k => encodable k = true) (seen_products w) ->
  seen_products (load_seen_products (save_seen_products w)) = seen_products w.
Proof.
  intros Henc. unfold save_seen_products. rewrite load_after_save.
  - apply set_eq. intros k. by rewrite elem_of_list_to_set, elem_of_elements.
  - apply Forall_forall. intros k Hk. apply Henc. by apply elem_of_elements.
Qed.

End StoreFacts.

(** Two keys, written in the order opposite to the one they were
    inserted in. *)
Lemma save_load_roundtrip_witness :
  seen_products
    (load_seen_products
       (save_seen_products_as
          [u "https://shop.test/b_5.0"; u "https://shop.test/a_9.99"]
          example_store))
  = seen_products example_store.
Proof.
  apply save_load_roundtrip.
  - intros k. simpl. rewrite elem_of_union, !elem_of_singleton.
    rewrite elem_of_cons, list_elem_of_singleton. apply or_comm.
  - repeat constructor.
Defined.

(** C7 as stated fails for a key that holds a lone surrogate: the write
    raises inside [save_seen_products], the file stays empty, and the load
    that follows finds no JSON and resets the store to the empty set. *)
Lemma surrogate_key_lost :
  let w := {| net := quiet_net; requests_made := 0;
              seen_products := {[ [55296%N] ]};
              alerts := []; seen_file := None |} in
  seen_file (save_seen_products w) = Some [] /\
  seen_products (load_seen_products (save_seen_products w)) = ∅ /\
  seen_products (load_seen_products (save_seen_products w)) <> seen_products w.
Proof.
  simpl. unfold save_seen_products, load_seen_products. simpl.
  rewrite elements_singleton. simpl.
  split; [reflexivity|]. split; [reflexivity|].
  intros Heq. assert ([55296%N] ∈ (∅ : gset (list N))) as Hin.
  { rewrite Heq. by apply elem_of_singleton. }
  by apply not_elem_of_empty in Hin.
Qed.

(** ** The category scan: threshold and deduplication *)


Section ScanFacts.
Context `{PyLib}.




(** With an injective [repr], a candidate at the same URL with another
    price has another key. *)
Lemma product_id_price (c1 c2 : Product) :
  (forall x y, float_repr x = float_repr y -> x = y) ->
  url c1 = url c2 -> product_id c1 = product_id c2 -> price c1 = price c2.
Proof.
  intros Hinj Hu Hid. unfold product_id in Hid. rewrite Hu in Hid.
  apply Hinj. by do 2 apply app_inv_head in Hid.
Qed.


End ScanFacts.


(** ** Fetcher and discoverers *)

Section FetchFacts.
Context `{PyLib}.

(** When every attempt raises a [RequestException], the fetcher gives up
    after three attempts and returns [None]. *)
Lemma make_request_fails url w :
  (forall n x, net w n x = RequestError) ->
  make_request url default_retries w
  = (Ok None, with_requests w (3 + requests_made w)).
Proof.
  intros Hnet. unfold make_request, default_retries.
  cbn [make_request_loop]. rewrite Hnet. cbn.
  rewrite Hnet. cbn. rewrite Hnet. reflexivity.
Qed.

Lemma scan_category_all_fail cfg category w :
  (forall n x, net w n x = RequestError) ->
  scan_category cfg category w
  = ((0%nat, 0%nat, false), with_requests w (6 + requests_made w)).
Proof.
  intros Hnet. unfold scan_category, get_all_pages, try_except, bind.
  rewrite make_request_fails by done. cbn [ret].
  cbn [scan_pages]. unfold parse_products, bind.
  rewrite make_request_fails by done. reflexivity.
Qed.

(** With a network that is down, the categories of a cycle leave the totals
    as they are. *)
Lemma scan_categories_all_fail cfg categories : forall totals w,
  (forall n x, net w n x = RequestError) ->
  fst (scan_categories cfg categories totals w) = totals.
Proof.
  induction categories as [|category rest IH]; intros totals w Hnet;
    cbn [scan_categories]; [done|].
  rewrite scan_category_all_fail by done.
  rewrite IH by done.
  destruct totals as [[tc tf] ce]. simpl. by rewrite !Nat.add_0_r.
Qed.

(** Three failed attempts on one URL, whatever the other URLs give. *)
Lemma make_request_fails_at url w :
  (forall k, (k < 3)%nat -> net w (k + requests_made w) url = RequestError) ->
  make_request url default_retries w
  = (Ok None, with_requests w (3 + requests_made w)).
Proof.
  intros Hnet. unfold make_request, default_retries.
  pose proof (Hnet 0%nat ltac:(lia)) as H0.
  pose proof (Hnet 1%nat ltac:(lia)) as H1.
  pose proof (Hnet 2%nat ltac:(lia)) as H2.
  cbn [Nat.add] in H0, H1, H2.
  cbn [make_request_loop]. rewrite H0.
  cbn [Nat.eqb Nat.sub make_request_loop with_requests net requests_made].
  rewrite H1.
  cbn [Nat.eqb Nat.sub make_request_loop with_requests net requests_made].
  rewrite H2. reflexivity.
Qed.

Lemma scan_category_fetches_fail cfg category w :
  (forall k, (k < 6)%nat ->
             net w (k + requests_made w) (sorted_url_of category) = RequestError) ->
  scan_category cfg category w
  = ((0%nat, 0%nat, false), with_requests w (6 + requests_made w)).
Proof.
  intros Hnet. unfold scan_category, get_all_pages, try_except, bind.
  rewrite make_request_fails_at by (intros k Hk; apply Hnet; lia).
  cbn [ret scan_pages]. unfold parse_products, bind.
  rewrite make_request_fails_at; [reflexivity|].
  intros k Hk. cbn [with_requests net requests_made].
  replace (k + (3 + requests_made w))%nat with (k + 3 + requests_made w)%nat by lia.
  apply Hnet. lia.
Qed.

(** C3, as amended. A category whose own fetches fail after three attempts
    each (six requests for the sorted first page: three for pagination and
    three for extraction), whatever other URLs give, reports no product
    checked, none found and no error; it leaves the totals, the store and
    the alerts as they were. *)
Theorem failed_fetch_outcome (cfg : Config) (category : str) (w : World)
    (totals : nat * nat * nat) :
  (forall k, (k < 6)%nat ->
             net w (k + requests_made w) (sorted_url_of category) = RequestError) ->
  fst (scan_category cfg category w) = (0%nat, 0%nat, false) /\
  aggregate totals (fst (scan_category cfg category w)) = totals /\
  requests_made (snd (scan_category cfg category w)) = (6 + requests_made w)%nat /\
  seen_products (snd (scan_category cfg category w)) = seen_products w /\
  alerts (snd (scan_category cfg category w)) = alerts w.
Proof.
  intros Hnet. rewrite scan_category_fetches_fail by done. simpl.
  repeat split. destruct totals as [[tc tf] ce]. simpl.
  by rewrite !Nat.add_0_r.
Qed.

Lemma add_pages_head category_url links : forall first pages,
  exists rest,
    snd (add_pages category_url links (first :: pages)) = first :: rest.
Proof.
  induction links as [|link links IH]; intros first pages;
    cbn [add_pages]; [by eexists|].
  destruct (_ && _); [|apply IH].
  destruct (urljoin _ _) as [full_url|]; [|by eexists].
  destruct (in_list _ _); apply IH.
Qed.

Lemma paginate_head category_url soup selectors : forall first pages,
  exists rest,
    snd (paginate category_url soup selectors (first :: pages)) = first :: rest.
Proof.
  induction selectors as [|selector selectors IH]; intros first pages;
    cbn [paginate]; [by eexists|].
  destruct (select soup selector); [apply IH | apply add_pages_head].
Qed.

(** C6. The list of pages starts with the category URL followed by the
    ascending-price sort parameter, and when the fetch of that page fails
    (it returns nothing, or raises) the list has nothing else. *)
Theorem first_page_sorted (category_url : str) (w : World) :
  let sorted_url :=
    category_url ++ (if has_char (ch "?") category_url then u "&" else u "?")
                 ++ u "sort_by=price_asc" in
  (exists rest, fst (get_all_pages category_url w) = Ok (sorted_url :: rest)) /\
  ((forall soup, fst (make_request sorted_url default_retries w) <> Ok (Some soup)) ->
   fst (get_all_pages category_url w) = Ok [sorted_url]).
Proof.
  intros sorted_url.
  unfold get_all_pages, try_except, bind, sorted_url_of. fold sorted_url.
  destruct (make_request sorted_url default_retries w) as [[[soup|]|] w'];
    cbn [ret fst]; split; try (by eexists); try done.
  - destruct (paginate_head category_url soup pagination_selectors sorted_url [])
      as [rest Hrest].
    destruct (paginate _ _ _ _) as [[[]|] pages']; simpl in Hrest; subst pages';
      by eexists.
  - intros Hfail. by destruct (Hfail soup).
Qed.

(** A link contributes a URL only if the URL starts with the base. *)
Lemma category_of_link_same_origin cfg base link full_url :
  category_of_link cfg base link = Ok (Some full_url) ->
  startswith full_url base = true.
Proof.
  unfold category_of_link.
  destruct (_ || _); [done|].
  destruct (urljoin _ _) as [joined|]; [|done].
  destruct (negb (startswith _ base)) eqn:E; [done|].
  apply negb_false_iff in E.
  repeat match goal with
         | |- context [if ?b then _ else _] => destruct b; [done|]
         end.
  by intros [= <-].
Qed.

(** A link makes the discovery raise exactly when its [href] gets as far as
    [urljoin] and [urljoin] raises. *)
Lemma category_of_link_raises cfg base link :
  category_of_link cfg base link = Raised <->
  (PyStr.eqb (get link (u "href") []) []
   || in_list (get link (u "href") []) [u "#"; u "/"; []]) = false /\
  urljoin base (get link (u "href") []) = None.
Proof.
  unfold category_of_link.
  destruct (_ || _); [split; [done | by intros [? _]]|].
  destruct (urljoin _ _) as [joined|]; [|done].
  split; [|by intros [_ ?]].
  repeat match goal with
         | |- context [if ?b then _ else _] => destruct b; [done|]
         end.
  done.
Qed.

(** What the loop over the links of one selector does to the set. *)
Lemma add_categories_ok cfg base links : forall categories categories',
  add_categories cfg base links categories = Ok categories' ->
  Forall (fun link => category_of_link cfg base link <> Raised) links /\
  forall full_url,
    full_url ∈ categories' <->
    full_url ∈ categories \/
    exists link, In link links /\ category_of_link cfg base link = Ok (Some full_url).
Proof.
  induction links as [|link links IH]; intros categories categories';
    cbn [add_categories].
  - intros [= <-]. split; [constructor|]. intros full_url.
    split; [by left | intros [?|(? & [] & _)]; done].
  - destruct (category_of_link cfg base link) as [[found|]|] eqn:E; [| |done];
      intros Hrest; apply IH in Hrest as [Hall Hin];
      (split; [constructor; [congruence | done]|]);
      intros full_url; rewrite Hin.
    + rewrite elem_of_union, elem_of_singleton. split.
      * intros [[?| ->]|(l & Hl & Hu)]; [by left | |].
        -- right. exists link. split; [by left | done].
        -- right. exists l. split; [by right | done].
      * intros [?|(l & [<-|Hl] & Hu)]; [by left; left | |].
        -- left; right. congruence.
        -- right. by exists l.
    + split.
      * intros [?|(l & Hl & Hu)]; [by left|].
        right. exists l. split; [by right | done].
      * intros [?|(l & [<-|Hl] & Hu)]; [by left | congruence |].
        right. by exists l.
Qed.

Lemma add_categories_raised cfg base links : forall categories,
  add_categories cfg base links categories = Raised ->
  exists link, In link links /\ category_of_link cfg base link = Raised.
Proof.
  induction links as [|link links IH]; intros categories;
    cbn [add_categories]; [done|].
  destruct (category_of_link cfg base link) as [[found|]|] eqn:E.
  - intros (l & Hl & Hr)%IH. exists l. split; [by right | done].
  - intros (l & Hl & Hr)%IH. exists l. split; [by right | done].
  - intros _. exists link. split; [by left | done].
Qed.

(** What the selector loop collects: the URLs of the links of every
    selector, on top of what the set held. *)
Lemma collect_categories_spec cfg base soup selectors : forall categories categories',
  collect_categories cfg base soup selectors categories = Ok categories' ->
  (forall selector link,
     In selector selectors -> In link (select soup selector) ->
     category_of_link cfg base link <> Raised) /\
  forall full_url,
    full_url ∈ categories' <->
    full_url ∈ categories \/
    exists selector link,
      In selector selectors /\ In link (select soup selector) /\
      category_of_link cfg base link = Ok (Some full_url).
Proof.
  induction selectors as [|selector rest IH]; intros categories categories';
    cbn [collect_categories].
  - intros [= <-]. split; [by intros ? ? []|]. intros full_url.
    split; [by left | intros [?|(? & ? & [] & _)]; done].
  - destruct (add_categories cfg base (select soup selector) categories)
      as [categories1|] eqn:E; [|done].
    apply add_categories_ok in E as [Hall1 Hin1].
    intros Hrest. apply IH in Hrest as [Hall Hin]. split.
    + intros s link [<-|Hs] Hl; [|by eapply Hall].
      rewrite Forall_forall in Hall1. apply Hall1. by apply list_elem_of_In.
    + intros full_url. rewrite Hin, Hin1. split.
      * intros [[?|(link & Hl & Hu)]|(s & link & Hs & Hl & Hu)].
        -- by left.
        -- right. exists selector, link. split; [by left | done].
        -- right. exists s, link. split; [by right | done].
      * intros [?|(s & link & [<-|Hs] & Hl & Hu)].
        -- by left; left.
        -- left; right. by exists link.
        -- right. by exists s, link.
Qed.

Lemma collect_categories_raised cfg base soup selectors : forall categories,
  collect_categories cfg base soup selectors categories = Raised ->
  exists selector link,
    In selector selectors /\ In link (select soup selector) /\
    category_of_link cfg base link = Raised.
Proof.
  induction selectors as [|selector rest IH]; intros categories;
    cbn [collect_categories]; [done|].
  destruct (add_categories cfg base (select soup selector) categories)
    as [categories1|] eqn:E.
  - intros (s & link & Hs & Hl & Hr)%IH. exists s, link.
    split; [by right | done].
  - intros _. apply add_categories_raised in E as (link & Hl & Hr).
    exists selector, link. split; [by left | done].
Qed.

(** [startswith] holds exactly of the texts that extend the prefix. *)
Lemma startswith_spec s : forall p,
  startswith s p = true <-> exists rest, s = p ++ rest.
Proof.
  induction s as [|b s IH]; intros [|a p]; simpl.
  - split; [by exists [] | done].
  - split; [done | by intros [rest ?]].
  - split; [by eexists | done].
  - rewrite andb_true_iff, N.eqb_eq, IH. split.
    + intros [-> [rest ->]]. by exists rest.
    + intros [rest [= -> ->]]. split; [done | by exists rest].
Qed.

(** C9. Every URL that [get_all_categories] returns begins with the base
    URL it was given: it is the base URL followed by some text. *)
Theorem categories_same_origin (cfg : Config) (base : str) (w : World) :
  Forall (fun category =>
            startswith category base = true /\
            exists rest, category = base ++ rest)
         (match fst (get_all_categories cfg base w) with
          | Ok categories => categories
          | Raised => []
          end).
Proof.
  unfold get_all_categories, bind.
  destruct (make_request base default_retries w) as [[[soup|]|] w'];
    cbn [ret fst]; try constructor.
  destruct (collect_categories cfg base soup menu_selectors ∅)
    as [categories|] eqn:E; cbn [ret raise fst]; [|constructor].
  apply collect_categories_spec in E as [_ Hin].
  apply Forall_forall. intros category Hc.
  apply elem_of_elements, Hin in Hc as [Hc|(selector & link & _ & _ & Hu)].
  - by apply not_elem_of_empty in Hc.
  - apply category_of_link_same_origin in Hu.
    split; [done | by apply startswith_spec].
Qed.

Lemma get_all_categories_served cfg base w soup :
  fst (make_request base default_retries w) = Ok (Some soup) ->
  fst (get_all_categories cfg base w)
  = match collect_categories cfg base soup menu_selectors ∅ with
    | Ok categories => Ok (elements categories)
    | Raised => Raised
    end.
Proof.
  intros Hreq. unfold get_all_categories, bind.
  destruct (make_request base default_retries w) as [r w']. simpl in Hreq.
  subst r. by destruct (collect_categories _ _ _ _ _).
Qed.

(** C2, as amended. The categories are the URLs that the links of all
    navigation selectors give, taken together: a URL is returned exactly
    when some selector of the list matches a link that passes the filters
    and resolves to it. That is so when [urljoin] accepts the [href] of
    every link it is given; when it raises on the link of some selector,
    the discovery raises and returns nothing. *)
Theorem categories_union (cfg : Config) (base : str) (w : World) (soup : Tag) :
  fst (make_request base default_retries w) = Ok (Some soup) ->
  ((exists selector link,
      In selector menu_selectors /\ In link (select soup selector) /\
      category_of_link cfg base link = Raised) /\
   fst (get_all_categories cfg base w) = Raised) \/
  ((forall selector link,
      In selector menu_selectors -> In link (select soup selector) ->
      category_of_link cfg base link <> Raised) /\
   exists categories,
     fst (get_all_categories cfg base w) = Ok categories /\
     forall full_url,
       In full_url categories <->
       exists selector link,
         In selector menu_selectors /\ In link (select soup selector) /\
         category_of_link cfg base link = Ok (Some full_url)).
Proof.
  intros Hreq. rewrite (get_all_categories_served _ _ _ _ Hreq).
  destruct (collect_categories cfg base soup menu_selectors ∅)
    as [categories|] eqn:E.
  - right. apply collect_categories_spec in E as [Hall Hin].
    split; [done|]. eexists. split; [done|].
    intros full_url. rewrite <- list_elem_of_In, elem_of_elements, Hin.
    split; [|by right].
    intros [Hc|Hc]; [by apply not_elem_of_empty in Hc | done].
  - left. split; [by eapply collect_categories_raised | done].
Qed.

End FetchFacts.

(** ** Closed examples *)

(** C3 as stated fails: with every attempt of every fetch failing, the
    category reports no error, and the count of categories with errors
    stays at 0 instead of going to 1. *)
Lemma failed_fetch_not_counted :
  let outcome := fst (scan_category threshold_cfg coffee example_store) in
  outcome = (0%nat, 0%nat, false) /\
  aggregate (0%nat, 0%nat, 0%nat) outcome = (0%nat, 0%nat, 0%nat) /\
  snd (aggregate (0%nat, 0%nat, 0%nat) outcome) <> 1%nat.
Proof.
  cbv zeta. rewrite scan_category_all_fail by done. simpl.
  repeat split. discriminate.
Qed.

Lemma failed_fetch_outcome_witness :
  fst (scan_category threshold_cfg coffee coffee_down_world) = (0%nat, 0%nat, false).
Proof.
  apply (failed_fetch_outcome threshold_cfg coffee coffee_down_world
           (0%nat, 0%nat, 0%nat)).
  intros k _. vm_compute. reflexivity.
Defined.

Lemma first_page_sorted_witness :
  fst (get_all_pages coffee example_store)
  = Ok [u "https://shop.test/coffee?sort_by=price_asc"].
Proof.
  apply (proj2 (first_page_sorted coffee example_store)).
  intros soup. vm_compute. discriminate.
Defined.

(** C2 as stated fails: on the home page the first selector with matches
    is the navigation bar, which links to coffee only, and yet tea, which
    only the menu container links to, is among the categories. *)
Lemma categories_not_first_match_only :
  first_match_links home_page menu_selectors
  = [anchor coffee (u "Coffee")] /\
  (tea ∉ first_match_categories threshold_cfg (u "https://shop.test") home_page) /\
  exists categories,
    fst (get_all_categories threshold_cfg (u "https://shop.test") home_world)
    = Ok categories /\
    In coffee categories /\ In tea categories.
Proof.
  split; [vm_compute; reflexivity|]. split.
  - unfold first_match_categories.
    assert (first_match_links home_page menu_selectors
            = [anchor coffee (u "Coffee")]) as -> by (vm_compute; reflexivity).
    rewrite elem_of_list_to_set, list_elem_of_omap.
    intros (link & Hl & Hu). apply list_elem_of_singleton in Hl. subst link.
    vm_compute in Hu. discriminate.
  - rewrite (get_all_categories_served _ _ _ home_page) by done.
    destruct (collect_categories threshold_cfg (u "https://shop.test") home_page
                menu_selectors ∅) as [categories|] eqn:E;
      [|vm_compute in E; discriminate].
    apply collect_categories_spec in E as [_ Hin].
    eexists. split; [done|].
    rewrite <- !list_elem_of_In, !elem_of_elements, !Hin.
    split; right.
    + exists (u "nav a"), (anchor coffee (u "Coffee")).
      split; [by left|]. split; [vm_compute; by left|]. vm_compute. reflexivity.
    + exists (u ".menu a"), (anchor tea (u "Tea")).
      split; [right; right; by left|]. split; [vm_compute; by left|].
      vm_compute. reflexivity.
Qed.

Lemma categories_union_witness :
  exists categories,
    fst (get_all_categories threshold_cfg (u "https://shop.test") home_world)
    = Ok categories /\
    forall full_url,
      In full_url categories <->
      exists selector link,
        In selector menu_selectors /\ In link (select home_page selector) /\
        category_of_link threshold_cfg (u "https://shop.test") link
        = Ok (Some full_url).
Proof.
  assert (fst (make_request (u "https://shop.test") default_retries home_world)
          = Ok (Some home_page)) as Hreq by (vm_compute; reflexivity).
  destruct (categories_union threshold_cfg (u "https://shop.test") home_world
              home_page Hreq) as [[_ Hraised]|[_ Hcategories]].
  - exfalso. vm_compute in Hraised. discriminate.
  - exact Hcategories.
Defined.

(** With a link that [urljoin] rejects in the menu container, the
    discovery raises, and so does the cycle. *)
Example discovery_raises_on_bad_link :
  fst (get_all_categories threshold_cfg (u "https://shop.test") bad_link_world)
  = Raised /\
  fst (scan_website threshold_cfg bad_link_world) = Raised.
Proof. split; vm_compute; reflexivity. Qed.


(** C8. On a container in which no title selector matches and which holds
    a link of 12 characters followed by one of 32, the title is the text of
    the first link, not the longest one. *)
Theorem title_fallback_takes_first :
  title_by_selectors two_link_container title_selectors None = (None, None) /\
  fst (extract_title two_link_container) = Some (u "Buy it today") /\
  longest_link_text (find_all_a_href two_link_container)
  = Some (u "Stainless steel espresso machine").
Proof. repeat split; vm_compute; reflexivity. Qed.

(** A heading that is too short to qualify still fills [title], so the
    last resort is not tried and the short text stays. *)
Lemma short_title_blocks_fallback :
  extract_title short_heading_container = (Some (u "Sale"), None) /\
  title_by_links (find_all_a_href short_heading_container)
  = Some (u "Hand grinder with ceramic burrs",
          anchor (u "https://shop.test/p/2") (u "Hand grinder with ceramic burrs")).
Proof. split; vm_compute; reflexivity. Qed.

(** * Further properties of the code *)

(** ** Fetcher *)

Section RetryFacts.

(** The retry loop only counts requests: it makes at most as many as it
    has iterations left, at least one when it has any, and touches nothing
    else. *)
Lemma make_request_loop_frame url n : forall todo a w,
  (requests_made w <= requests_made (snd (make_request_loop url n a todo w))
   <= requests_made w + todo)%nat /\
  ((0 < todo)%nat ->
   (requests_made w < requests_made (snd (make_request_loop url n a todo w)))%nat) /\
  net (snd (make_request_loop url n a todo w)) = net w /\
  seen_products (snd (make_request_loop url n a todo w)) = seen_products w /\
  alerts (snd (make_request_loop url n a todo w)) = alerts w /\
  seen_file (snd (make_request_loop url n a todo w)) = seen_file w.
Proof.
  induction todo as [|todo IH]; intros a w; cbn [make_request_loop].
  - simpl. repeat split; lia.
  - destruct (net w (requests_made w) url); [simpl; repeat split; lia | | simpl; repeat split; lia].
    destruct (Nat.eqb a (n - 1)); [simpl; repeat split; lia|].
    destruct (IH (S a) (with_requests w (S (requests_made w))))
      as (Hr & _ & Hn & Hs & Ha & Hf).
    simpl in Hr, Hn, Hs, Ha, Hf. repeat split; try done; lia.
Qed.

(** X1. [make_request] issues at least one and at most [max_retries]
    requests (none when [max_retries] is 0), and changes nothing but the
    count of requests: the network, the store, the alerts and the store's
    file stay as they were. *)
Theorem make_request_bounded (url : str) (max_retries : nat) (w : World) :
  (requests_made w <= requests_made (snd (make_request url max_retries w))
   <= requests_made w + max_retries)%nat /\
  ((0 < max_retries)%nat ->
   (requests_made w < requests_made (snd (make_request url max_retries w)))%nat) /\
  net (snd (make_request url max_retries w)) = net w /\
  seen_products (snd (make_request url max_retries w)) = seen_products w /\
  alerts (snd (make_request url max_retries w)) = alerts w /\
  seen_file (snd (make_request url max_retries w)) = seen_file w.
Proof. apply make_request_loop_frame. Qed.

Lemma make_request_loop_recovers url n soup : forall k todo a w,
  (k < todo)%nat -> (a + todo = n)%nat ->
  (forall j, (j < k)%nat -> net w (j + requests_made w) url = RequestError) ->
  net w (k + requests_made w) url = Served soup ->
  make_request_loop url n a todo w
  = (Ok (Some soup), with_requests w (S (k + requests_made w))).
Proof.
  induction k as [|k IH]; intros todo a w Hk Hn Hfail Hok;
    (destruct todo as [|todo]; [lia|]); cbn [make_request_loop].
  - simpl in Hok. by rewrite Hok.
  - pose proof (Hfail 0%nat ltac:(lia)) as H0. simpl in H0. rewrite H0.
    replace (Nat.eqb a (n - 1)) with false
      by (symmetry; apply Nat.eqb_neq; lia).
    rewrite (IH todo (S a) (with_requests w (S (requests_made w)))); simpl.
    + unfold with_requests. simpl. do 2 f_equal. lia.
    + lia.
    + lia.
    + intros j Hj. replace (j + S (requests_made w))%nat
        with (S j + requests_made w)%nat by lia. apply Hfail. lia.
    + replace (k + S (requests_made w))%nat
        with (S k + requests_made w)%nat by lia. exact Hok.
Qed.

(** X2. When the first [k] attempts raise a [RequestException] and the
    next one is served, with [k] below [max_retries], [make_request] returns
    that response after exactly [k + 1] requests. *)
Theorem make_request_recovers (url : str) (max_retries k : nat) (soup : Tag) (w : World) :
  (k < max_retries)%nat ->
  (forall j, (j < k)%nat -> net w (j + requests_made w) url = RequestError) ->
  net w (k + requests_made w) url = Served soup ->
  make_request url max_retries w
  = (Ok (Some soup), with_requests w (S (k + requests_made w))).
Proof.
  intros Hk Hfail Hok. unfold make_request.
  by apply make_request_loop_recovers.
Qed.

End RetryFacts.

(** Two failures, then the home page: the third attempt returns it. *)
Lemma make_request_recovers_witness :
  make_request coffee default_retries flaky_world
  = (Ok (Some home_page), with_requests flaky_world 3).
Proof.
  apply (make_request_recovers coffee default_retries 2 home_page flaky_world).
  - unfold default_retries. lia.
  - intros j Hj. destruct j as [|[|j]]; [reflexivity | reflexivity | lia].
  - reflexivity.
Defined.

(** ** Pagination and category discovery *)

Section DiscoveryFacts.
Context `{PyLib}.

Lemma in_list_spec (x : str) (l : list str) : in_list x l = true <-> In x l.
Proof.
  unfold in_list. rewrite existsb_exists. split.
  - intros (y & Hy & Heq). apply bool_decide_eq_true in Heq. by subst.
  - intros Hx. exists x. split; [done|]. by apply bool_decide_eq_true.
Qed.

(** The loop over the links of a pagination region: the links it gets to
    are those before the first on which [urljoin] raises, and each of them
    whose [href] passes the test adds its resolved URL. *)
Lemma add_pages_spec category_url links : forall pages,
  exists reached unreached,
    links = reached ++ unreached /\
    Forall (fun link => ~ stops_pagination category_url link) reached /\
    (unreached = [] \/
     exists link, head unreached = Some link /\ stops_pagination category_url link) /\
    forall page,
      In page (snd (add_pages category_url links pages)) <->
      In page pages \/
      exists link, In link reached /\ page_href (get link (u "href") []) = true /\
                   urljoin category_url (get link (u "href") []) = Some page.
Proof.
  induction links as [|link links IH]; intros pages; cbn [add_pages].
  - exists [], []. split; [done|]. split; [constructor|]. split; [by left|].
    intros page. cbn [snd]. split; [by left | intros [?|(? & [] & _)]; done].
  - fold (page_href (get link (u "href") [])).
    destruct (page_href (get link (u "href") [])) eqn:Hh.
    + destruct (urljoin category_url (get link (u "href") []))
        as [full_url|] eqn:Hj.
      * assert (~ stops_pagination category_url link) as Hns
          by (intros [_ ?]; congruence).
        destruct (in_list full_url pages) eqn:Hin.
        -- destruct (IH pages) as (reached & unreached & -> & Hall & Hun & Hpages).
           exists (link :: reached), unreached.
           split; [done|]. split; [by constructor|]. split; [done|].
           intros page. rewrite Hpages. apply in_list_spec in Hin.
           cbn [In]. clear IH Hpages. split.
           ++ intros [?|(l & ? & ? & ?)]; [by left | right; exists l; auto].
           ++ intros [?|(l & [<-|?] & ? & Hu)];
                [by left | left; congruence | right; exists l; auto].
        -- destruct (IH (pages ++ [full_url]))
             as (reached & unreached & -> & Hall & Hun & Hpages).
           exists (link :: reached), unreached.
           split; [done|]. split; [by constructor|]. split; [done|].
           intros page. rewrite Hpages, in_app_iff.
           cbn [In]. clear IH Hpages. split.
           ++ intros [[?|[<-|[]]]|(l & ? & ? & ?)];
                [by left | right; exists link; auto | right; exists l; auto].
           ++ intros [?|(l & [<-|?] & ? & Hu)];
                [left; by left | left; right; left; congruence
                | right; exists l; auto].
      * exists [], (link :: links).
        split; [done|]. split; [constructor|]. split.
        -- right. exists link. by split.
        -- intros page. cbn [snd].
           split; [by left | intros [?|(? & [] & _)]; done].
    + destruct (IH pages) as (reached & unreached & -> & Hall & Hun & Hpages).
      exists (link :: reached), unreached. split; [done|].
      split; [constructor; [intros [? _]; congruence | done]|]. split; [done|].
      intros page. rewrite Hpages. cbn [In]. clear IH Hpages. split.
      * intros [?|(l & ? & ? & ?)]; [by left | right; exists l; auto].
      * intros [?|(l & [<-|?] & Hl & Hu)];
          [by left | congruence | right; exists l; auto].
Qed.

Lemma add_pages_nodup category_url links : forall pages,
  NoDup pages -> NoDup (snd (add_pages category_url links pages)).
Proof.
  induction links as [|link links IH]; intros pages Hnd; cbn [add_pages]; [done|].
  destruct (_ && _); [|by apply IH].
  destruct (urljoin _ _) as [full_url|]; [|done].
  destruct (in_list _ pages) eqn:Hin; [by apply IH|].
  apply IH. apply NoDup_app. split; [done|]. split; [|apply NoDup_singleton].
  intros x Hx Hx'. apply list_elem_of_singleton in Hx'. subst x.
  apply list_elem_of_In, in_list_spec in Hx. congruence.
Qed.

(** The selector loop of the pagination: it stops at the first selector
    with matches. *)
Lemma paginate_first category_url soup pages : forall selectors,
  (Forall (fun s => select soup s = []) selectors /\
   paginate category_url soup selectors pages = (Ok tt, pages)) \/
  exists before selector after,
    selectors = before ++ selector :: after /\
    Forall (fun s => select soup s = []) before /\
    select soup selector <> [] /\
    paginate category_url soup selectors pages
    = add_pages category_url (select soup selector) pages.
Proof.
  induction selectors as [|selector rest IH]; cbn [paginate].
  - left. by split.
  - destruct (select soup selector) as [|l ls] eqn:E.
    + destruct IH as [[Hall Hp]|(before & sel & after & -> & Hb & Hne & Hp)].
      * left. split; [by constructor | done].
      * right. exists (selector :: before), sel, after.
        split; [done|]. split; [by constructor|]. by split.
    + right. exists [], selector, rest. rewrite E. by repeat split.
Qed.

(** Whether the pagination loop ends or [urljoin] raises, the function
    returns the list as it stands. *)
Lemma get_all_pages_served category_url w soup :
  fst (make_request (sorted_url_of category_url) default_retries w) = Ok (Some soup) ->
  fst (get_all_pages category_url w)
  = Ok (snd (paginate category_url soup pagination_selectors
                      [sorted_url_of category_url])).
Proof.
  intros Hreq. unfold get_all_pages, try_except, bind.
  destruct (make_request _ default_retries w) as [r w']. simpl in Hreq.
  subst r. by destruct (paginate _ _ _ _) as [[[]|] pages'].
Qed.

Lemma get_all_pages_returns (category_url : str) (w : World) :
  exists pages, fst (get_all_pages category_url w) = Ok pages.
Proof.
  unfold get_all_pages, try_except, bind.
  destruct (make_request _ default_retries w) as [[[soup|]|] w'];
    cbn [ret fst]; try by eexists.
  destruct (paginate _ _ _ _) as [[[]|] pages']; by eexists.
Qed.

(** X3. Whatever the network does, [get_all_pages] returns a list and
    raises nothing, and the list holds no URL twice. *)
Theorem pages_distinct (category_url : str) (w : World) :
  exists pages, fst (get_all_pages category_url w) = Ok pages /\ NoDup pages.
Proof.
  destruct (fst (make_request (sorted_url_of category_url) default_retries w))
    as [[soup|]|] eqn:Hreq.
  - rewrite (get_all_pages_served _ _ _ Hreq). eexists. split; [done|].
    destruct (paginate_first category_url soup [sorted_url_of category_url]
                pagination_selectors) as [[_ ->]|(? & sel & ? & _ & _ & _ & ->)].
    + apply NoDup_singleton.
    + apply add_pages_nodup, NoDup_singleton.
  - unfold get_all_pages, try_except, bind.
    destruct (make_request _ default_retries w) as [r w']. simpl in Hreq.
    subst r. eexists. split; [done | apply NoDup_singleton].
  - unfold get_all_pages, try_except, bind.
    destruct (make_request _ default_retries w) as [r w']. simpl in Hreq.
    subst r. eexists. split; [done | apply NoDup_singleton].
Qed.

(** X4. When the sorted first page is served, the further pages come from
    one pagination selector only, the first of the list that matches
    anything: they are the resolved [href]s of its links, leaving out empty
    ones, [#] and [javascript:void(0)], up to the first link on which
    [urljoin] raises; that link and those after it add nothing. With no
    selector matching, the sorted page is the only one. *)
Theorem pages_from_first_pattern (category_url : str) (w : World) (soup : Tag) :
  fst (make_request (sorted_url_of category_url) default_retries w) = Ok (Some soup) ->
  (Forall (fun s => select soup s = []) pagination_selectors /\
   fst (get_all_pages category_url w) = Ok [sorted_url_of category_url]) \/
  exists before selector after reached unreached pages,
    pagination_selectors = before ++ selector :: after /\
    Forall (fun s => select soup s = []) before /\
    select soup selector <> [] /\
    select soup selector = reached ++ unreached /\
    Forall (fun link => ~ stops_pagination category_url link) reached /\
    (unreached = [] \/
     exists link, head unreached = Some link /\ stops_pagination category_url link) /\
    fst (get_all_pages category_url w) = Ok pages /\
    forall page,
      In page pages <->
      page = sorted_url_of category_url \/
      exists link,
        In link reached /\
        page_href (get link (u "href") []) = true /\
        urljoin category_url (get link (u "href") []) = Some page.
Proof.
  intros Hreq. rewrite (get_all_pages_served _ _ _ Hreq).
  destruct (paginate_first category_url soup [sorted_url_of category_url]
              pagination_selectors)
    as [[Hall ->]|(before & sel & after & Hsel & Hb & Hne & ->)].
  - by left.
  - right.
    destruct (add_pages_spec category_url (select soup sel)
                [sorted_url_of category_url])
      as (reached & unreached & Hsplit & Hreached & Hun & Hpages).
    exists before, sel, after, reached, unreached. eexists.
    split; [done|]. split; [done|]. split; [done|]. split; [done|].
    split; [done|]. split; [done|]. split; [reflexivity|].
    intros page. rewrite Hpages. cbn [In]. split.
    + intros [[<-|[]]|?]; [by left | by right].
    + intros [->|?]; [left; by left | by right].
Qed.

Lemma category_of_link_filtered cfg base link full_url :
  category_of_link cfg base link = Ok (Some full_url) ->
  any_in excluded_keywords (lower full_url) = false /\
  any_in (excluded_url_patterns cfg) (lower full_url) = false.
Proof.
  unfold category_of_link.
  destruct (_ || _); [done|].
  destruct (urljoin _ _) as [joined|]; [|done].
  destruct (negb (startswith _ base)); [done|].
  destruct (any_in excluded_keywords _) eqn:E1; [done|].
  destruct (any_in (excluded_url_patterns cfg) _) eqn:E2; [done|].
  by intros [= <-].
Qed.

(** X5. [get_all_categories] returns no URL twice, and none whose
    lower-cased form contains a word of the built-in denylist or a configured
    exclusion pattern. *)
Theorem categories_filtered (cfg : Config) (base : str) (w : World) :
  let categories :=
    match fst (get_all_categories cfg base w) with
    | Ok categories => categories
    | Raised => []
    end in
  NoDup categories /\
  Forall (fun category =>
            any_in excluded_keywords (lower category) = false /\
            any_in (excluded_url_patterns cfg) (lower category) = false)
         categories.
Proof.
  unfold get_all_categories, bind.
  destruct (make_request base default_retries w) as [[[soup|]|] w'];
    cbn [ret fst]; try (split; constructor).
  destruct (collect_categories cfg base soup menu_selectors ∅)
    as [categories|] eqn:E; cbn [ret raise fst]; [|split; constructor].
  apply collect_categories_spec in E as [_ Hin].
  split; [apply NoDup_elements|].
  apply Forall_forall. intros category Hc.
  apply elem_of_elements, Hin in Hc as [Hc|(selector & link & _ & _ & Hu)].
  - by apply not_elem_of_empty in Hc.
  - by eapply category_of_link_filtered.
Qed.

End DiscoveryFacts.

(** The pager is the first selector that matches: page 2 is added once,
    the fragment and the later next link are not. *)
Example pages_of_pager :
  fst (get_all_pages coffee pager_world)
  = Ok [u "https://shop.test/coffee?sort_by=price_asc";
        u "https://shop.test/coffee?page=2"].
Proof. vm_compute. reflexivity. Qed.

(** With a link that [urljoin] rejects after page 2, the list ends at
    page 2: page 3 is not reached. *)
Example pages_until_bad_link :
  fst (get_all_pages coffee stuck_pager_world)
  = Ok [u "https://shop.test/coffee?sort_by=price_asc";
        u "https://shop.test/coffee?page=2"].
Proof. vm_compute. reflexivity. Qed.

Lemma pages_from_first_pattern_witness :
  (Forall (fun s => select stuck_pager_page s = []) pagination_selectors /\
   fst (get_all_pages coffee stuck_pager_world) = Ok [sorted_url_of coffee]) \/
  exists before selector after reached unreached pages,
    pagination_selectors = before ++ selector :: after /\
    Forall (fun s => select stuck_pager_page s = []) before /\
    select stuck_pager_page selector <> [] /\
    select stuck_pager_page selector = reached ++ unreached /\
    Forall (fun link => ~ stops_pagination coffee link) reached /\
    (unreached = [] \/
     exists link, head unreached = Some link /\ stops_pagination coffee link) /\
    fst (get_all_pages coffee stuck_pager_world) = Ok pages /\
    forall page,
      In page pages <->
      page = sorted_url_of coffee \/
      exists link,
        In link reached /\
        page_href (get link (u "href") []) = true /\
        urljoin coffee (get link (u "href") []) = Some page.
Proof.
  apply (pages_from_first_pattern coffee stuck_pager_world stuck_pager_page).
  vm_compute. reflexivity.
Defined.

(** ** The price parser, continued *)

Section SeparatorFacts.
Context `{PyLib}.

Lemma count_none c s : (count c s >? 0) = false -> ~ In c s.
Proof.
  unfold count. intros Hc Hin. rewrite Z.gtb_ltb in Hc. apply Z.ltb_ge in Hc.
  induction s as [|x s IH]; [done|].
  rewrite filter_cons in Hc. case_decide as Hx.
  - simpl in Hc. lia.
  - destruct Hin as [->|Hin]; [|by apply IH].
    apply Hx, N.eqb_refl.
Qed.

Lemma in_replace x c t s : In x (replace c t s) -> In x t \/ In x s.
Proof.
  unfold replace. rewrite in_flat_map. intros (y & Hy & Hx).
  destruct (N.eqb y c); [by left|]. destruct Hx as [<-|[]]. by right.
Qed.

Lemma replace_removes c t s : ~ In c t -> ~ In c (replace c t s).
Proof.
  unfold replace. intros Ht. rewrite in_flat_map. intros (y & Hy & Hx).
  destruct (N.eqb_spec y c); [done|]. destruct Hx as [<-|[]]. done.
Qed.

(** X13. After the separators are resolved the text holds no comma: every
    comma was dropped as a thousands separator or turned into the decimal
    point. *)
Theorem normalize_separators_no_comma (price_text : str) :
  ~ In comma (normalize_separators price_text).
Proof.
  assert (~ In comma (u ".")) as Hdot by (vm_compute; intros [?|[]]; done).
  assert (~ In comma []) as Hnil by (intros []).
  unfold normalize_separators.
  destruct (count comma price_text >? 0) eqn:Hc; cbn [andb].
  - split_ifs; by apply replace_removes.
  - apply count_none in Hc.
    destruct (count dot price_text >? 1); [|done].
    intros Hin. apply in_replace in Hin as [[]|Hin]. done.
Qed.

Lemma filter_idem {A} (f : A -> bool) (l : list A) :
  List.filter f (List.filter f l) = List.filter f l.
Proof.
  induction l as [|x l IH]; simpl; [done|].
  destruct (f x) eqn:E; simpl; [|done]. by rewrite E, IH.
Qed.

Lemma percent_survives s :
  has_char (ch "%") (strip_currency s) = has_char (ch "%") s.
Proof.
  unfold has_char, strip_currency.
  induction s as [|c s IH]; cbn [List.filter existsb]; [done|].
  destruct (N.eqb (ch "%") c) eqn:E.
  - apply N.eqb_eq in E. subst c.
    change (negb (currency_class (ch "%"))) with true.
    cbn [existsb]. by rewrite N.eqb_refl.
  - destruct (negb (currency_class c)); cbn [existsb]; rewrite ?E; exact IH.
Qed.

(** X14. Currency words, currency signs and white space do not change what
    [parse_price] reads: a text and the same text without them give the same
    result. *)
Theorem parse_price_ignores_currency (price_text : str) :
  parse_price price_text = parse_price (strip_currency price_text).
Proof.
  destruct price_text as [|c s]; [reflexivity|].
  unfold parse_price at 1.
  set (t := strip_currency (c :: s)).
  pose proof (percent_survives (c :: s)) as Hp. fold t in Hp.
  unfold parse_price. rewrite Hp.
  unfold strip_currency at 1. fold (strip_currency t).
  replace (strip_currency t) with t by (symmetry; apply filter_idem).
  destruct t as [|d t'] eqn:Et.
  - by destruct (has_char _ (c :: s)).
  - reflexivity.
Qed.

End SeparatorFacts.

(** ** Extractor *)

Section ExtractorFacts.
Context `{PyLib}.

Lemma usable_finite p :
  usable p = true -> exists m e, p = S754_finite false m e.
Proof.
  unfold usable. intros [Hne Hpos]%andb_true_iff.
  destruct p as [s|s| |s m e]; try done.
  - by destruct s.
  - destruct s; [done|]. by eexists _, _.
Qed.

Lemma first_some_spec {A B} (f : A -> option B) (l : list A) y :
  first_some f l = Some y -> exists x, In x l /\ f x = Some y.
Proof.
  induction l as [|x l IH]; simpl; [done|].
  destruct (f x) as [y'|] eqn:E.
  - intros [= <-]. exists x. auto.
  - intros Hy. destruct (IH Hy) as (x' & ? & ?). exists x'. auto.
Qed.

Lemma price_of_elem_usable elem p :
  price_of_elem elem = Some p -> usable p = true.
Proof.
  unfold price_of_elem. destruct (_ && _); [|done].
  destruct (usable (parse_price _)) eqn:E; [|done]. by intros [= <-].
Qed.

Lemma price_of_text_usable text p :
  price_of_text text = Some p -> usable p = true.
Proof.
  unfold price_of_text. destruct (_ && _); [|done].
  destruct (_ && _); [|done].
  destruct (usable (parse_price _)) eqn:E; [|done]. by intros [= <-].
Qed.

(** The price of a container is the sentinel or a usable price. *)
Lemma extract_price_cases container :
  extract_price container = inf \/ usable (extract_price container) = true.
Proof.
  unfold extract_price.
  destruct (first_some _ price_selectors) as [p|] eqn:E.
  - right. apply first_some_spec in E as (selector & _ & E).
    apply first_some_spec in E as (elem & _ & E).
    by eapply price_of_elem_usable.
  - destruct (first_some price_of_text _) as [p|] eqn:E'; [|by left].
    right. apply first_some_spec in E' as (text & _ & E').
    by eapply price_of_text_usable.
Qed.

Lemma product_of_container_sane cfg container p :
  product_of_container cfg container = Some p ->
  title p <> [] /\
  (exists m e, price p = S754_finite false m e) /\
  leb (price p) (of_int 999999) = true /\
  any_in (excluded_url_patterns cfg) (lower (url p)) = false.
Proof.
  unfold product_of_container.
  destruct (extract_title container) as [[[|c t]|] title_elem]; try done.
  destruct (extract_link container title_elem) as [link_elem|]; [|done].
  destruct (urljoin _ _) as [product_url|]; [|done].
  destruct (eqb (extract_price container) inf) eqn:Einf; [done|].
  destruct (leb _ (of_int 0) || gtb _ (of_int 999999)) eqn:Eb; [done|].
  destruct (any_in _ _) eqn:Ex; [done|].
  intros [= <-]. simpl.
  apply orb_false_elim in Eb as [_ Eb].
  destruct (extract_price_cases container) as [Hp|Hp].
  { rewrite Hp in Einf. done. }
  destruct (usable_finite _ Hp) as (m & e & Hfin).
  rewrite Hfin in *. repeat split; [done | by eexists _, _ | | done].
  by apply positive_not_lt_le.
Qed.

Lemma parse_products_each cfg page_url w p :
  In p (match fst (parse_products cfg page_url w) with
        | Ok products => products
        | Raised => []
        end) ->
  title p <> [] /\
  (exists m e, price p = S754_finite false m e) /\
  leb (price p) (of_int 999999) = true /\
  any_in (excluded_url_patterns cfg) (lower (url p)) = false.
Proof.
  unfold parse_products, bind.
  destruct (make_request page_url default_retries w) as [[[soup|]|] w'];
    cbn [ret fst]; try done.
  intros Hp. apply list_elem_of_In, list_elem_of_omap in Hp as (container & _ & Hp).
  by eapply product_of_container_sane.
Qed.

(** X11. Every product that [parse_products] returns has a title that is
    not empty, a finite price that is greater than 0 and at most 999999, and
    a URL whose lower-cased form contains no configured exclusion pattern. *)
Theorem parse_products_sane (cfg : Config) (page_url : str) (w : World) :
  Forall (fun p =>
            title p <> [] /\
            (exists m e, price p = S754_finite false m e) /\
            ltb (of_int 0) (price p) = true /\
            leb (price p) (of_int 999999) = true /\
            any_in (excluded_url_patterns cfg) (lower (url p)) = false)
         (match fst (parse_products cfg page_url w) with
          | Ok products => products
          | Raised => []
          end).
Proof.
  apply List.Forall_forall. intros p Hp.
  apply parse_products_each in Hp as (Ht & (m & e & Hfin) & Hle & Hx).
  split; [done|]. split; [by eexists _, _|]. split; [by rewrite Hfin|]. by split.
Qed.

(** X17. The containers of a page are the matches of the first container
    selector that has at least three of them; the scan of all links is used
    only when no selector has three matches. *)
Theorem containers_need_three (soup : Tag) :
  (Forall (fun s => (length (select soup s) < 3)%nat) container_selectors /\
   find_containers soup
   = dedup_tags [] (omap potential_product (find_all_a_href soup))) \/
  exists before selector after,
    container_selectors = before ++ selector :: after /\
    Forall (fun s => (length (select soup s) < 3)%nat) before /\
    (3 <= length (select soup selector))%nat /\
    find_containers soup = select soup selector.
Proof.
  unfold find_containers.
  assert (forall selectors,
    (Forall (fun s => (length (select soup s) < 3)%nat) selectors /\
     primary_containers soup selectors = []) \/
    exists before selector after,
      selectors = before ++ selector :: after /\
      Forall (fun s => (length (select soup s) < 3)%nat) before /\
      (3 <= length (select soup selector))%nat /\
      primary_containers soup selectors = select soup selector) as Hprim.
  { induction selectors as [|selector rest IH]; cbn [primary_containers].
    - left. by split.
    - destruct (Z.leb_spec 3 (Z.of_nat (length (select soup selector)))) as [Hge|Hlt].
      + right. exists [], selector, rest.
        split; [done|]. split; [constructor|]. split; [lia | done].
      + destruct IH as [[Hall Hp]|(before & sel & after & -> & Hb & Hge & Hp)].
        * left. split; [constructor; [lia | done] | done].
        * right. exists (selector :: before), sel, after.
          split; [done|]. split; [constructor; [lia | done]|]. by split. }
  destruct (Hprim container_selectors)
    as [[Hall ->]|(before & sel & after & Hsel & Hb & Hge & ->)].
  - by left.
  - right. exists before, sel, after.
    split; [done|]. split; [done|]. split; [done|].
    destruct (select soup sel); [simpl in Hge; lia | done].
Qed.

Lemma title_by_selectors_elem container selectors : forall init t elem,
  title_by_selectors container selectors init = (t, Some elem) ->
  exists text, t = Some text /\ (5 < len text) /\
    (text = strip_space (get elem (u "title") []) \/ text = get_text_strip elem).
Proof.
  induction selectors as [|selector rest IH]; intros init t elem;
    cbn [title_by_selectors]; [done|].
  destruct (select_one container selector) as [e|]; [|apply IH].
  destruct (strip_space (get e (u "title") [])) as [|c attr] eqn:Ea.
  - destruct (negb _ && (len (get_text_strip e) >? 5)) eqn:E; [|apply IH].
    intros [= <- <-]. eexists. split; [reflexivity|].
    apply andb_true_iff in E as [_ E]. rewrite Z.gtb_ltb in E.
    apply Z.ltb_lt in E. split; [exact E | by right].
  - destruct (negb _ && (len (c :: attr) >? 5)) eqn:E; [|apply IH].
    intros [= <- <-]. eexists. split; [reflexivity|].
    apply andb_true_iff in E as [_ E]. rewrite Z.gtb_ltb in E.
    apply Z.ltb_lt in E. split; [exact E | by left].
Qed.

Lemma title_by_links_spec links text link :
  title_by_links links = Some (text, link) ->
  In link links /\ text = get_text_strip link /\ 10 < len text.
Proof.
  induction links as [|l links IH]; cbn [title_by_links]; [done|].
  destruct (len (get_text_strip l) >? 10) eqn:E.
  - rewrite Z.gtb_ltb in E. apply Z.ltb_lt in E.
    intros [= <- <-]. repeat split; [by left | exact E].
  - intros Hl. destruct (IH Hl) as (? & ? & ?). repeat split; [by right | done | done].
Qed.

(** X18. Whenever the title search reports the element it took the title
    from, the title is longer than five characters and is that element's
    stripped [title] attribute or its stripped text. *)
Theorem extract_title_from_elem (container : Tag) (t : str) (elem : Tag) :
  extract_title container = (Some t, Some elem) ->
  5 < len t /\
  (t = strip_space (get elem (u "title") []) \/ t = get_text_strip elem).
Proof.
  unfold extract_title.
  destruct (title_by_selectors container title_selectors None)
    as [title title_elem] eqn:E.
  destruct (falsy title) eqn:Ef.
  - destruct (title_by_links _) as [[text link]|] eqn:El.
    + intros [= <- <-]. apply title_by_links_spec in El as (_ & -> & Hlen).
      split; [lia | by right].
    + intros [= -> ->]. apply title_by_selectors_elem in E
        as (text & [= <-] & Hlen & _).
      destruct t; [unfold len in Hlen; simpl in Hlen; lia | done].
  - intros [= -> ->]. apply title_by_selectors_elem in E
      as (text & [= <-] & Hlen & Hsrc). done.
Qed.

End ExtractorFacts.

Lemma extract_title_from_elem_witness :
  5 < len (u "Buy it today") /\
  (u "Buy it today"
   = strip_space (get (anchor (u "https://shop.test/p/1") (u "Buy it today"))
                      (u "title") []) \/
   u "Buy it today"
   = get_text_strip (anchor (u "https://shop.test/p/1") (u "Buy it today"))).
Proof.
  apply (extract_title_from_elem two_link_container).
  vm_compute. reflexivity.
Defined.

(** ** The category scan, continued *)

Section ScanEffects.
Context `{PyLib}.

Lemma make_request_frame url n w :
  same_but_requests w (snd (make_request url n w)).
Proof.
  destruct (make_request_loop_frame url n n 0%nat w) as (_ & _ & ? & ? & ? & ?).
  by repeat split.
Qed.

Lemma parse_products_frame cfg page_url w :
  same_but_requests w (snd (parse_products cfg page_url w)).
Proof.
  unfold parse_products, bind.
  pose proof (make_request_frame page_url default_retries w) as Hf.
  by destruct (make_request page_url default_retries w) as [[[soup|]|] w'].
Qed.

Lemma get_all_pages_frame category_url w :
  same_but_requests w (snd (get_all_pages category_url w)).
Proof.
  unfold get_all_pages, try_except, bind.
  pose proof (make_request_frame (sorted_url_of category_url) default_retries w) as Hf.
  destruct (make_request _ default_retries w) as [[[soup|]|] w']; try done.
  by destruct (paginate _ _ _ _) as [[[]|] pages'].
Qed.

(** What the loop over the kept products adds. *)
Lemma notify_new_effect (filtered : list Product) : forall found w,
  exists new,
    alerts (snd (notify_new filtered found w)) = new ++ alerts w /\
    fst (notify_new filtered found w) = (found + length new)%nat /\
    Forall (fun p => In p filtered) new /\
    (length new <= length filtered)%nat /\
    size (seen_products (snd (notify_new filtered found w)))
    = (length new + size (seen_products w))%nat /\
    seen_products (snd (notify_new filtered found w))
    = list_to_set (map product_id filtered) ∪ seen_products w /\
    net (snd (notify_new filtered found w)) = net w /\
    requests_made (snd (notify_new filtered found w)) = requests_made w /\
    seen_file (snd (notify_new filtered found w)) = seen_file w.
Proof.
  induction filtered as [|p rest IH]; intros found w.
  - exists []. simpl. split_and!; first [done | lia | set_solver].
  - cbn [notify_new]. case_bool_decide as Hid.
    + destruct (IH found w) as (new & Ha & Hf & Hin & Hlen & Hsz & Hs & Hn & Hr & Hfile).
      exists new. split_and!; try done.
      * eapply Forall_impl; [exact Hin|]. intros q Hq. by right.
      * simpl. lia.
      * rewrite Hs, fmap_cons. set_solver.
    + set (w2 := send_telegram_alert _ _).
      destruct (IH (S found) w2) as (new & Ha & Hf & Hin & Hlen & Hsz & Hs & Hn & Hr & Hfile).
      exists (new ++ [p]). split_and!; try done.
      * rewrite Ha. simpl. by rewrite <- app_assoc.
      * rewrite Hf, length_app. simpl. lia.
      * apply Forall_app. split.
        -- eapply Forall_impl; [exact Hin|]. intros q Hq. by right.
        -- constructor; [by left | constructor].
      * rewrite length_app. simpl. lia.
      * rewrite Hsz, length_app. simpl.
        rewrite size_union by set_solver. rewrite size_singleton. lia.
      * rewrite Hs, fmap_cons. simpl. set_solver.
Qed.

(** What a scan of pages adds to the world, and how its counters move. *)
Lemma scan_pages_effect cfg pages : forall checked found w,
  exists new,
    alerts (snd (scan_pages cfg pages checked found w)) = new ++ alerts w /\
    found_of (fst (scan_pages cfg pages checked found w)) = (found + length new)%nat /\
    (length new + checked <= checked_of (fst (scan_pages cfg pages checked found w)))%nat /\
    size (seen_products (snd (scan_pages cfg pages checked found w)))
    = (length new + size (seen_products w))%nat /\
    seen_products w ⊆ seen_products (snd (scan_pages cfg pages checked found w)) /\
    Forall (fun p =>
              leb (price p) (max_price cfg) = true /\ plausible cfg p /\
              product_id p ∈ seen_products (snd (scan_pages cfg pages checked found w)))
           new /\
    net (snd (scan_pages cfg pages checked found w)) = net w /\
    seen_file (snd (scan_pages cfg pages checked found w)) = seen_file w.
Proof.
  induction pages as [|page rest IH]; intros checked found w; cbn [scan_pages].
  - exists []. simpl. split_and!; first [done | lia | constructor].
  - pose proof (parse_products_frame cfg page w) as (Hn1 & Hs1 & Ha1 & Hf1).
    pose proof (parse_products_each cfg page w) as Hsane.
    destruct (parse_products cfg page w) as [[products|] w1]; cbn [fst snd] in *.
    + set (filtered := filter_products cfg products).
      destruct (notify_new_effect filtered found w1)
        as (new1 & Ha & Hf & Hin & Hlen & Hsz & Hs & Hn & _ & Hfile).
      destruct (notify_new filtered found w1) as [found1 w2]; cbn [fst snd] in *.
      destruct (IH (checked + length filtered)%nat found1 w2)
        as (new2 & Ha2 & Hf2 & Hc2 & Hsz2 & Hsub2 & Hall2 & Hn2 & Hfile2).
      exists (new2 ++ new1). split_and!.
      * rewrite Ha2, Ha, Ha1. by rewrite app_assoc.
      * rewrite Hf2, Hf, length_app. lia.
      * rewrite length_app. lia.
      * rewrite Hsz2, Hsz, Hs1, length_app. lia.
      * rewrite <- Hs1. etrans; [|exact Hsub2]. rewrite Hs. set_solver.
      * apply Forall_app. split; [exact Hall2|].
        apply List.Forall_forall. intros p Hp.
        apply (proj1 (List.Forall_forall _ _) Hin) in Hp.
        split_and!.
        -- unfold filtered, filter_products in Hp.
           by apply List.filter_In in Hp as [_ Hp].
        -- apply Hsane. unfold filtered, filter_products in Hp.
           by apply List.filter_In in Hp as [Hp _].
        -- apply Hsub2. rewrite Hs. apply elem_of_union_l, elem_of_list_to_set.
           apply list_elem_of_fmap. exists p. split; [done|].
           by apply list_elem_of_In.
      * by rewrite Hn2, Hn.
      * by rewrite Hfile2, Hfile.
    + exists []. split_and!.
      * exact Ha1.
      * unfold found_of. simpl. lia.
      * unfold checked_of. simpl. lia.
      * by rewrite Hs1.
      * by rewrite Hs1.
      * constructor.
      * exact Hn1.
      * exact Hf1.
Qed.

Lemma scan_category_effect cfg category w :
  exists new,
    alerts (snd (scan_category cfg category w)) = new ++ alerts w /\
    found_of (fst (scan_category cfg category w)) = length new /\
    (length new <= checked_of (fst (scan_category cfg category w)))%nat /\
    size (seen_products (snd (scan_category cfg category w)))
    = (length new + size (seen_products w))%nat /\
    seen_products w ⊆ seen_products (snd (scan_category cfg category w)) /\
    Forall (fun p =>
              leb (price p) (max_price cfg) = true /\ plausible cfg p /\
              product_id p ∈ seen_products (snd (scan_category cfg category w)))
           new /\
    net (snd (scan_category cfg category w)) = net w /\
    seen_file (snd (scan_category cfg category w)) = seen_file w.
Proof.
  unfold scan_category.
  pose proof (get_all_pages_frame category w) as (Hn1 & Hs1 & Ha1 & Hf1).
  destruct (get_all_pages category w) as [[pages|] w1]; cbn [fst snd] in *.
  - destruct (scan_pages_effect cfg pages 0%nat 0%nat w1)
      as (new & Ha & Hf & Hc & Hsz & Hsub & Hall & Hn & Hfile).
    exists new. split_and!; try done.
    + by rewrite Ha, Ha1.
    + lia.
    + by rewrite Hsz, Hs1.
    + by rewrite <- Hs1.
    + by rewrite Hn.
    + by rewrite Hfile.
  - exists []. split_and!.
    + exact Ha1.
    + reflexivity.
    + unfold checked_of. simpl. lia.
    + by rewrite Hs1.
    + by rewrite Hs1.
    + constructor.
    + exact Hn1.
    + exact Hf1.
Qed.

(** X9. In the outcome of a category scan the number of products found is
    the number of alerts issued and the number of keys added to the store,
    and it never exceeds the number of products checked; the scan removes no
    key from the store. *)
Theorem scan_category_counts (cfg : Config) (category : str) (w : World) :
  let outcome := fst (scan_category cfg category w) in
  let w' := snd (scan_category cfg category w) in
  (found_of outcome <= checked_of outcome)%nat /\
  length (alerts w') = (found_of outcome + length (alerts w))%nat /\
  size (seen_products w') = (found_of outcome + size (seen_products w))%nat /\
  seen_products w ⊆ seen_products w'.
Proof.
  destruct (scan_category_effect cfg category w)
    as (new & Ha & Hf & Hc & Hsz & Hsub & _).
  cbv zeta. rewrite Ha, Hf, Hsz, length_app. split_and!; done.
Qed.

(** X10. Every alert that a category scan issues is for a product whose
    price is at most the configured threshold, finite, greater than 0 and at
    most 999999, whose title is not empty, whose URL matches no exclusion
    pattern, and whose key the store holds when the scan ends. *)
Theorem scan_category_alerts (cfg : Config) (category : str) (w : World) :
  exists new,
    alerts (snd (scan_category cfg category w)) = new ++ alerts w /\
    Forall (fun p =>
              leb (price p) (max_price cfg) = true /\ plausible cfg p /\
              product_id p ∈ seen_products (snd (scan_category cfg category w)))
           new.
Proof.
  destruct (scan_category_effect cfg category w)
    as (new & Ha & _ & _ & _ & _ & Hall & _).
  by exists new.
Qed.

End ScanEffects.

(** ** Errors and their containment *)

Section ErrorFacts.
Context `{PyLib}.

Lemma make_request_loop_no_raise url n : forall todo a w,
  (forall k x, net w k x <> OtherError) ->
  fst (make_request_loop url n a todo w) <> Raised.
Proof.
  induction todo as [|todo IH]; intros a w Hnet; cbn [make_request_loop]; [done|].
  destruct (net w (requests_made w) url) eqn:E; [done| |by destruct (Hnet _ _ E)].
  destruct (Nat.eqb a (n - 1)); [done|]. by apply IH.
Qed.

Lemma parse_products_no_raise cfg page_url w :
  (forall k x, net w k x <> OtherError) ->
  fst (parse_products cfg page_url w) <> Raised.
Proof.
  intros Hnet. unfold parse_products, bind.
  pose proof (make_request_loop_no_raise page_url default_retries
                default_retries 0%nat w Hnet) as Hr.
  fold (make_request page_url default_retries) in Hr.
  by destruct (make_request page_url default_retries w) as [[[soup|]|] w'].
Qed.

Lemma scan_pages_no_error cfg pages : forall checked found w,
  (forall k x, net w k x <> OtherError) ->
  had_errors_of (fst (scan_pages cfg pages checked found w)) = false.
Proof.
  induction pages as [|page rest IH]; intros checked found w Hnet;
    cbn [scan_pages]; [done|].
  pose proof (parse_products_no_raise cfg page w Hnet) as Hr.
  pose proof (parse_products_frame cfg page w) as (Hn1 & _).
  destruct (parse_products cfg page w) as [[products|] w1]; [|done].
  cbn [fst snd] in *.
  destruct (notify_new_effect (filter_products cfg products) found w1)
    as (new & _ & _ & _ & _ & _ & _ & Hn & _).
  destruct (notify_new (filter_products cfg products) found w1) as [found1 w2].
  cbn [fst snd] in *. apply IH. intros k x. rewrite Hn, Hn1. apply Hnet.
Qed.

(** X8. The error flag of a category scan is raised only by an exception
    that is no [RequestException]: on a network whose attempts are served or
    fail with a [RequestException], every category reports no error, however
    many fetches fail. *)
Theorem no_error_without_exception (cfg : Config) (category : str) (w : World) :
  (forall k x, net w k x <> OtherError) ->
  had_errors_of (fst (scan_category cfg category w)) = false.
Proof.
  intros Hnet. unfold scan_category.
  pose proof (get_all_pages_frame category w) as (Hn1 & _).
  destruct (get_all_pages_returns category w) as [pages Hp].
  destruct (get_all_pages category w) as [r w1]. cbn [fst snd] in *. subst r.
  apply scan_pages_no_error. intros k x. rewrite Hn1. apply Hnet.
Qed.

End ErrorFacts.

Lemma no_error_without_exception_witness :
  had_errors_of (fst (scan_category threshold_cfg coffee flaky_world)) = false.
Proof.
  apply (no_error_without_exception threshold_cfg coffee flaky_world).
  intros k x. unfold flaky_world, flaky_net. cbn [net].
  destruct (k <? 2)%nat; discriminate.
Defined.

Section ContainmentFacts.
Context `{PyLib}.

(** X6. When every attempt raises something that is no
    [RequestException], the category task contains it: the pagination fetch
    is caught inside [get_all_pages], the fetch of the first page ends the
    scan, and the task reports nothing checked, nothing found and an error,
    which the orchestrator counts as one more category with errors. *)
Theorem exception_is_contained (cfg : Config) (category : str) (w : World)
    (totals : nat * nat * nat) :
  (forall k x, net w k x = OtherError) ->
  scan_category cfg category w
  = ((0%nat, 0%nat, true), with_requests w (2 + requests_made w)) /\
  aggregate totals (fst (scan_category cfg category w))
  = (fst (fst totals), snd (fst totals), S (snd totals)).
Proof.
  intros Hnet.
  assert (scan_category cfg category w
          = ((0%nat, 0%nat, true), with_requests w (2 + requests_made w))) as Hs.
  { unfold scan_category, get_all_pages, try_except, bind, make_request,
      default_retries.
    cbn [make_request_loop]. rewrite Hnet. cbn [ret scan_pages].
    unfold parse_products, bind, make_request, default_retries.
    cbn [make_request_loop with_requests net requests_made].
    rewrite Hnet. reflexivity. }
  split; [exact Hs|]. rewrite Hs. destruct totals as [[tc tf] ce]. simpl.
  by rewrite !Nat.add_0_r.
Qed.

(** X7. The discovery of the categories is not protected: when the first
    attempt to fetch the base URL raises something that is no
    [RequestException], [get_all_categories] raises and so does
    [scan_website], after that one request. *)
Theorem discovery_exception_escapes (cfg : Config) (w : World) :
  net w (requests_made w) (base_url cfg) = OtherError ->
  get_all_categories cfg (base_url cfg) w
  = (Raised, with_requests w (S (requests_made w))) /\
  scan_website cfg w = (Raised, with_requests w (S (requests_made w))).
Proof.
  intros Hnet.
  assert (get_all_categories cfg (base_url cfg) w
          = (Raised, with_requests w (S (requests_made w)))) as Hc.
  { unfold get_all_categories, bind, make_request, default_retries.
    cbn [make_request_loop]. by rewrite Hnet. }
  split; [exact Hc|]. unfold scan_website, bind. by rewrite Hc.
Qed.

(** X15. Pages are scanned in order, and an exception ends the scan: the
    scan of a list of pages followed by another is the scan of the first,
    continued on the second with the counters and the world it left, unless
    the first ended with an error, in which case the second is not touched
    and the counters reached so far are returned. *)
Theorem scan_pages_app (cfg : Config) (pages1 pages2 : list str)
    (checked found : nat) (w : World) :
  scan_pages cfg (pages1 ++ pages2) checked found w
  = let first := scan_pages cfg pages1 checked found w in
    if had_errors_of (fst first) then first
    else scan_pages cfg pages2 (checked_of (fst first)) (found_of (fst first))
                    (snd first).
Proof.
  revert checked found w.
  induction pages1 as [|page rest IH]; intros checked found w; [reflexivity|].
  cbn [app scan_pages].
  destruct (parse_products cfg page w) as [[products|] w1]; [|reflexivity].
  destruct (notify_new (filter_products cfg products) found w1) as [found1 w2].
  apply IH.
Qed.

Lemma scan_categories_effect cfg categories : forall totals w,
  let result := scan_categories cfg categories totals w in
  (snd totals <= snd (fst result) <= snd totals + length categories)%nat /\
  (snd (fst (fst result)) + length (alerts w)
   = snd (fst totals) + length (alerts (snd result)))%nat /\
  (snd (fst (fst result)) + size (seen_products w)
   = snd (fst totals) + size (seen_products (snd result)))%nat /\
  (snd (fst (fst result)) + fst (fst totals)
   <= fst (fst (fst result)) + snd (fst totals))%nat /\
  seen_products w ⊆ seen_products (snd result).
Proof.
  induction categories as [|category rest IH]; intros totals w;
    cbn [scan_categories].
  - cbv zeta. simpl. split_and!; try lia. done.
  - destruct (scan_category_effect cfg category w)
      as (new & Ha & Hf & Hc & Hsz & Hsub & _).
    destruct (scan_category cfg category w) as [[[c f] e] w1].
    unfold found_of, checked_of in *. cbn [fst snd] in *.
    specialize (IH (aggregate totals (c, f, e)) w1). cbv zeta in *.
    destruct (scan_categories cfg rest (aggregate totals (c, f, e)) w1)
      as [[[tc tf] ce] w2].
    destruct totals as [[tc0 tf0] ce0]. cbn [aggregate fst snd length] in *.
    destruct IH as (He & Hal & Hsize & Hck & Hsub2).
    rewrite Ha, length_app in Hal. rewrite Hsz in Hsize.
    split_and!.
    + destruct e; lia.
    + destruct e; lia.
    + lia.
    + lia.
    + lia.
    + by etrans.
Qed.

(** X16. Over the categories of a cycle, the count of categories with
    errors grows by at most one per category, the count of products found
    grows by exactly the number of alerts issued and of keys added to the
    store, and by no more than the count of products checked; no key leaves
    the store. *)
Theorem cycle_totals (cfg : Config) (categories : list str)
    (totals : nat * nat * nat) (w : World) :
  let result := scan_categories cfg categories totals w in
  (snd totals <= snd (fst result) <= snd totals + length categories)%nat /\
  (snd (fst (fst result)) + length (alerts w)
   = snd (fst totals) + length (alerts (snd result)))%nat /\
  (snd (fst (fst result)) + size (seen_products w)
   = snd (fst totals) + size (seen_products (snd result)))%nat /\
  (snd (fst (fst result)) + fst (fst totals)
   <= fst (fst (fst result)) + snd (fst totals))%nat /\
  seen_products w ⊆ seen_products (snd result).
Proof. apply scan_categories_effect. Qed.

End ContainmentFacts.

Lemma exception_is_contained_witness :
  scan_category threshold_cfg coffee broken_world
  = ((0%nat, 0%nat, true), with_requests broken_world 2).
Proof.
  apply (exception_is_contained threshold_cfg coffee broken_world (0%nat, 0%nat, 0%nat)).
  intros k x. reflexivity.
Defined.

Lemma discovery_exception_escapes_witness :
  scan_website threshold_cfg broken_world = (Raised, with_requests broken_world 1).
Proof.
  apply (discovery_exception_escapes threshold_cfg broken_world).
  reflexivity.
Defined.

(** ** Scanning a category again *)

Section RescanFacts.
Context `{PyLib}.

Lemma make_request_loop_static url n : forall todo a w w2,
  static (net w) -> net w2 = net w ->
  fst (make_request_loop url n a todo w2) = fst (make_request_loop url n a todo w).
Proof.
  induction todo as [|todo IH]; intros a w w2 Hst Hnet; cbn [make_request_loop];
    [done|].
  rewrite Hnet, (Hst (requests_made w2) (requests_made w) url).
  destruct (net w (requests_made w) url); try done.
  destruct (Nat.eqb a (n - 1)); [done|]. by apply IH.
Qed.

Lemma parse_products_static cfg page_url w w2 :
  static (net w) -> net w2 = net w ->
  fst (parse_products cfg page_url w2) = fst (parse_products cfg page_url w).
Proof.
  intros Hst Hnet. unfold parse_products, bind.
  pose proof (make_request_loop_static page_url default_retries default_retries
                0%nat w w2 Hst Hnet) as Heq.
  fold (make_request page_url default_retries) in Heq.
  destruct (make_request page_url default_retries w) as [[[soup|]|] w'];
    destruct (make_request page_url default_retries w2) as [[[soup2|]|] w2'];
    cbn [fst] in Heq; try done.
  by injection Heq as ->.
Qed.

Lemma get_all_pages_static category_url w w2 :
  static (net w) -> net w2 = net w ->
  fst (get_all_pages category_url w2) = fst (get_all_pages category_url w).
Proof.
  intros Hst Hnet. unfold get_all_pages, try_except, bind.
  pose proof (make_request_loop_static (sorted_url_of category_url)
                default_retries default_retries 0%nat w w2 Hst Hnet) as Heq.
  fold (make_request (sorted_url_of category_url) default_retries) in Heq.
  destruct (make_request _ default_retries w) as [[[soup|]|] w'];
    destruct (make_request _ default_retries w2) as [[[soup2|]|] w2'];
    cbn [fst] in Heq; try done.
  injection Heq as ->. by destruct (paginate _ _ _ _) as [[[]|] pages'].
Qed.

(** Products whose keys the store holds change nothing. *)
Lemma notify_new_noop filtered : forall found w,
  (forall p, In p filtered -> product_id p ∈ seen_products w) ->
  notify_new filtered found w = (found, w).
Proof.
  induction filtered as [|p rest IH]; intros found w Hall; cbn [notify_new];
    [done|].
  rewrite bool_decide_eq_true_2 by (apply Hall; by left).
  apply IH. intros q Hq. apply Hall. by right.
Qed.

Lemma rescan_pages cfg pages : forall c f w c2 f2 w2,
  static (net w) -> net w2 = net w ->
  seen_products (snd (scan_pages cfg pages c f w)) ⊆ seen_products w2 ->
  found_of (fst (scan_pages cfg pages c2 f2 w2)) = f2 /\
  had_errors_of (fst (scan_pages cfg pages c2 f2 w2))
  = had_errors_of (fst (scan_pages cfg pages c f w)) /\
  (checked_of (fst (scan_pages cfg pages c2 f2 w2)) + c
   = checked_of (fst (scan_pages cfg pages c f w)) + c2)%nat /\
  alerts (snd (scan_pages cfg pages c2 f2 w2)) = alerts w2 /\
  seen_products (snd (scan_pages cfg pages c2 f2 w2)) = seen_products w2.
Proof.
  induction pages as [|page rest IH]; intros c f w c2 f2 w2 Hst Hnet Hsub;
    cbn [scan_pages] in *.
  - unfold checked_of. simpl. split_and!; try done. lia.
  - pose proof (parse_products_static cfg page w w2 Hst Hnet) as Heq.
    pose proof (parse_products_frame cfg page w) as (Hn1 & Hs1 & Ha1 & _).
    pose proof (parse_products_frame cfg page w2) as (Hn2 & Hs2 & Ha2 & _).
    destruct (parse_products cfg page w) as [[products|] w1];
      destruct (parse_products cfg page w2) as [[products2|] w3];
      cbn [fst snd] in *; try done.
    + injection Heq as ->.
      set (filtered := filter_products cfg products) in *.
      destruct (notify_new_effect filtered f w1)
        as (new1 & _ & _ & _ & _ & _ & Hs & Hn & _).
      destruct (notify_new filtered f w1) as [f1 w1'].
      cbn [fst snd] in *.
      destruct (scan_pages_effect cfg rest (c + length filtered)%nat f1 w1')
        as (new2 & _ & _ & _ & _ & Hmono & _).
      rewrite (notify_new_noop filtered f2 w3).
      2:{ intros p Hp. rewrite Hs2. apply Hsub, Hmono. rewrite Hs.
          apply elem_of_union_l, elem_of_list_to_set, list_elem_of_fmap.
          exists p. split; [done|]. by apply list_elem_of_In. }
      destruct (IH (c + length filtered)%nat f1 w1'
                   (c2 + length filtered)%nat f2 w3)
        as (Hf & He & Hc & Ha & Hseen).
      * intros n m x. rewrite Hn, Hn1. apply Hst.
      * by rewrite Hn, Hn1, Hn2.
      * by rewrite Hs2.
      * split_and!; try done; [lia | by rewrite Ha | by rewrite Hseen].
    + unfold checked_of. simpl. split_and!; try done. lia.
Qed.

Lemma scan_category_pages cfg category w pages w1 :
  get_all_pages category w = (Ok pages, w1) ->
  scan_category cfg category w = scan_pages cfg pages 0 0 w1.
Proof. intros E. unfold scan_category. by rewrite E. Qed.

(** X19. On a site that answers every URL the same way at every request, a
    category scanned a second time right after the first finds nothing new:
    it checks as many products and reports the same error flag, and it
    issues no alert and adds no key. *)
Theorem rescan_finds_nothing (cfg : Config) (category : str) (w : World) :
  static (net w) ->
  let first := scan_category cfg category w in
  let second := scan_category cfg category (snd first) in
  found_of (fst second) = 0%nat /\
  checked_of (fst second) = checked_of (fst first) /\
  had_errors_of (fst second) = had_errors_of (fst first) /\
  alerts (snd second) = alerts (snd first) /\
  seen_products (snd second) = seen_products (snd first).
Proof.
  intros Hst. cbv zeta.
  pose proof (get_all_pages_frame category w) as (Hn1 & _).
  destruct (get_all_pages_returns category w) as [pages Hp].
  destruct (get_all_pages category w) as [r w1] eqn:E1. cbn [fst snd] in *.
  subst r. rewrite (scan_category_pages cfg category w pages w1 E1).
  destruct (scan_pages_effect cfg pages 0%nat 0%nat w1)
    as (new & _ & _ & _ & _ & _ & _ & Hnet & _). clear new.
  set (first := scan_pages cfg pages 0 0 w1) in *.
  assert (net (snd first) = net w) as Hnf by (by rewrite Hnet, Hn1).
  pose proof (get_all_pages_static category w (snd first) Hst Hnf) as Hpages.
  pose proof (get_all_pages_frame category (snd first)) as (Hn3 & Hs3 & Ha3 & _).
  rewrite E1 in Hpages.
  destruct (get_all_pages category (snd first)) as [r w3] eqn:E3.
  cbn [fst snd] in *. subst r.
  rewrite (scan_category_pages cfg category (snd first) pages w3 E3).
  destruct (rescan_pages cfg pages 0%nat 0%nat w1 0%nat 0%nat w3)
    as (Hf & He & Hc & Ha & Hs).
  - intros n m x. rewrite Hn1. apply Hst.
  - by rewrite Hn3, Hnf, Hn1.
  - fold first. by rewrite Hs3.
  - fold first in He, Hc. split_and!.
    + exact Hf.
    + lia.
    + exact He.
    + by rewrite Ha.
    + by rewrite Hs.
Qed.

End RescanFacts.

(** The listing: cups and mugs are under the threshold of 10.0 and are
    alerted once; the second scan checks them again and finds nothing. *)
Example listing_first_scan :
  fst (scan_category threshold_cfg coffee listing_world) = (2%nat, 2%nat, false) /\
  map title (alerts (snd (scan_category threshold_cfg coffee listing_world)))
  = [u "Stoneware mugs"; u "Espresso cups, set of two"].
Proof. split; vm_compute; reflexivity. Qed.

Lemma rescan_finds_nothing_witness :
  found_of (fst (scan_category threshold_cfg coffee
                   (snd (scan_category threshold_cfg coffee listing_world))))
  = 0%nat.
Proof.
  assert (static (net listing_world)) as Hst by (intros n m x; reflexivity).
  exact (proj1 (rescan_finds_nothing threshold_cfg coffee listing_world Hst)).
Defined.

(** ** A failed save *)

Section FailedSave.
Import Json.

Lemma escape_surrogate c : is_surrogate c = true -> escape_char c = [c].
Proof.
  unfold is_surrogate. intros Hs. apply andb_true_iff in Hs as [Hlo _].
  apply N.leb_le in Hlo.
  unfold escape_char.
  repeat match goal with
         | |- context [(c =? ?k)%N] =>
             destruct (N.eqb_spec c k); [lia|]
         end.
  destruct (N.ltb_spec c 32); [lia | done].
Qed.

Lemma encodable_escaped_inv s :
  encodable (flat_map escape_char s) = true -> encodable s = true.
Proof.
  induction s as [|c s IH]; [done|]. cbn [flat_map].
  rewrite encodable_app. intros [Hc Hs]%andb_true_iff.
  cbn [encodable forallb]. fold (encodable s). rewrite (IH Hs), andb_true_r.
  destruct (is_surrogate c) eqn:E; [|done].
  rewrite (escape_surrogate c E) in Hc. simpl in Hc. by rewrite E in Hc.
Qed.

Lemma encodable_item (is_first : bool) (k : str) :
  encodable ((if is_first then 91%N :: newline_indent else 44%N :: newline_indent)
               ++ encode_string k) = encodable k.
Proof.
  rewrite encodable_app.
  replace (encodable (if is_first then _ else _)) with true by (by destruct is_first).
  cbn [andb]. destruct (encodable k) eqn:E.
  - by apply encodable_encode_string.
  - apply not_true_is_false. intros Henc. unfold encode_string in Henc.
    change (34%N :: flat_map escape_char k ++ [34%N])
      with ([34%N] ++ flat_map escape_char k ++ [34%N]) in Henc.
    rewrite !encodable_app in Henc.
    apply andb_true_iff in Henc as [_ [Henc _]%andb_true_iff].
    apply encodable_escaped_inv in Henc. congruence.
Qed.

(** The write stops before the is_first key that cannot be encoded. *)
Lemma write_chunks_stops keys : forall written is_first rest,
  Exists (fun k => encodable k = false) keys ->
  write_chunks written (item_chunks is_first keys ++ rest)
  = written ++ concat (item_chunks is_first (encodable_prefix keys)).
Proof.
  induction keys as [|k keys IH]; intros written is_first rest Hbad.
  - by apply Exists_nil in Hbad.
  - cbn [item_chunks app write_chunks encodable_prefix].
    rewrite encodable_item. destruct (encodable k) eqn:E.
    + apply Exists_cons in Hbad as [Hbad|Hbad]; [congruence|].
      rewrite IH by done. cbn [item_chunks concat]. by rewrite <- app_assoc.
    + by rewrite app_nil_r.
Qed.

(** What is left in the file does not end the array. *)
Lemma run_unfinished keys :
  run Start (concat (item_chunks true keys))
  = Some (match keys with [] => Start | _ => AfterString (rev keys) end).
Proof.
  destruct keys as [|k keys]; [done|].
  cbn [item_chunks concat]. rewrite run_app, run_first_item. simpl.
  by rewrite run_items.
Qed.

(** X12. When the store holds a key that a UTF-8 file cannot take, the save
    fails and the load that follows (at the next start) leaves the store
    empty: every key is lost, not only the one that could not be written. *)
Theorem failed_save_empties_store (w : World) (order : list str) :
  Exists (fun k => encodable k = false) order ->
  seen_products (load_seen_products (save_seen_products_as order w)) = ∅.
Proof.
  intros Hbad. unfold load_seen_products, save_seen_products_as. simpl.
  unfold chunks. destruct order as [|k order]; [by apply Exists_nil in Hbad|].
  rewrite write_chunks_stops by done. cbn [app].
  unfold loads_strings. rewrite run_unfinished.
  by destruct (encodable_prefix (k :: order)).
Qed.

End FailedSave.

(** A good key followed by one with a lone surrogate. *)
Lemma failed_save_empties_store_witness :
  seen_products
    (load_seen_products
       (save_seen_products_as [u "https://shop.test/a_9.99"; [55296%N]]
                              example_store))
  = ∅.
Proof.
  apply (failed_save_empties_store example_store).
  apply Exists_cons. right. apply Exists_cons. left. reflexivity.
Defined.

(** ** A cycle with nothing to scan *)

Section EmptyCycle.
Context `{PyLib}.

(** X20. When the base page cannot be fetched, a cycle scans nothing: after
    the three attempts [scan_website] returns zero products checked, zero
    found and zero categories with errors, and no category page is
    requested. *)
Theorem nothing_to_scan (cfg : Config) (w : World) :
  (forall n x, net w n x = RequestError) ->
  scan_website cfg w
  = (Ok (0%nat, 0%nat, 0%nat), with_requests w (3 + requests_made w)).
Proof.
  intros Hnet. unfold scan_website, get_all_categories, bind.
  by rewrite make_request_fails.
Qed.

End EmptyCycle.

Lemma nothing_to_scan_witness :
  scan_website threshold_cfg example_store
  = (Ok (0%nat, 0%nat, 0%nat), with_requests example_store 3).
Proof.
  apply (nothing_to_scan threshold_cfg example_store).
  intros n x. reflexivity.
Defined.

(** ** European and US notation *)

Section NotationFacts.
Context `{PyLib}.

Lemma rfind_lower_bound c s : -1 <= rfind c s.
Proof.
  induction s as [|x s IH]; simpl; [lia|].
  destruct (0 <=? rfind c s) eqn:E; [lia|]. destruct (N.eqb x c); lia.
Qed.

Lemma rfind_found c s : In c s <-> 0 <= rfind c s.
Proof.
  induction s as [|x s IH]; simpl; [split; [done | lia]|].
  destruct (Z.leb_spec 0 (rfind c s)) as [Hr|Hr].
  - split; [lia | intros _; right; by apply IH].
  - destruct (N.eqb_spec x c) as [->|Hne].
    + split; [lia | by left].
    + split; [|lia]. intros [?|Hin]; [done|]. apply IH in Hin. lia.
Qed.

(** Two different characters are not last seen at the same place. *)
Lemma rfind_apart a b s :
  a <> b -> 0 <= rfind a s -> rfind a s <> rfind b s.
Proof.
  intros Hab. induction s as [|x s IH]; simpl; [lia|].
  pose proof (rfind_lower_bound a s). pose proof (rfind_lower_bound b s).
  destruct (Z.leb_spec 0 (rfind a s)) as [Ha|Ha];
    destruct (Z.leb_spec 0 (rfind b s)) as [Hb|Hb].
  - intros _. specialize (IH Ha). lia.
  - intros _. destruct (N.eqb x b); lia.
  - destruct (N.eqb x a); lia.
  - destruct (N.eqb_spec x a) as [->|]; [|lia].
    destruct (N.eqb_spec a b); [done | lia].
Qed.

Lemma swap_separator_invol c : swap_separator (swap_separator c) = c.
Proof.
  unfold swap_separator.
  destruct (N.eqb_spec c dot) as [->|Hd]; [reflexivity|].
  destruct (N.eqb_spec c comma) as [->|Hc]; [reflexivity|].
  destruct (N.eqb_spec c dot); [done|]. by destruct (N.eqb_spec c comma).
Qed.

Lemma swap_separator_eqb x c :
  N.eqb (swap_separator x) c = N.eqb x (swap_separator c).
Proof.
  destruct (N.eqb_spec (swap_separator x) c) as [<-|Hne].
  - by rewrite swap_separator_invol, N.eqb_refl.
  - symmetry. apply N.eqb_neq. intros ->. by rewrite swap_separator_invol in Hne.
Qed.

Lemma rfind_swap c s :
  rfind c (swap_separators s) = rfind (swap_separator c) s.
Proof.
  unfold swap_separators. induction s as [|x s IH]; simpl; [done|].
  by rewrite IH, swap_separator_eqb.
Qed.

Lemma in_swap c s : In c (swap_separators s) <-> In (swap_separator c) s.
Proof. by rewrite !rfind_found, rfind_swap. Qed.

Lemma count_found c s : (count c s >? 0) = true <-> In c s.
Proof.
  split.
  - intros Hc. destruct (In_dec N.eq_dec c s) as [|Hn]; [done|].
    exfalso. induction s as [|x s IH]; [done|].
    unfold count in *. rewrite filter_cons in Hc. case_decide as Hx.
    + apply N.eqb_eq in Hx. subst. apply Hn. by left.
    + apply IH; [done|]. intros Hin. apply Hn. by right.
  - intros Hin. destruct (count c s >? 0) eqn:E; [done|].
    by apply count_none in E.
Qed.

Lemma strip_currency_swap s :
  strip_currency (swap_separators s) = swap_separators (strip_currency s).
Proof.
  unfold strip_currency, swap_separators.
  induction s as [|x s IH]; simpl; [done|].
  assert (currency_class (swap_separator x) = currency_class x) as ->.
  { unfold swap_separator.
    destruct (N.eqb_spec x dot) as [->|]; [reflexivity|].
    by destruct (N.eqb_spec x comma) as [->|]. }
  destruct (negb (currency_class x)); simpl; by rewrite IH.
Qed.

Lemma has_percent_swap s :
  has_char (ch "%") (swap_separators s) = has_char (ch "%") s.
Proof.
  unfold has_char, swap_separators. induction s as [|x s IH]; simpl; [done|].
  rewrite IH. f_equal. unfold swap_separator.
  destruct (N.eqb_spec x dot) as [->|]; [reflexivity|].
  by destruct (N.eqb_spec x comma) as [->|].
Qed.

(** With the comma last: dots go and commas become dots, which is what
    dropping the commas of the exchanged text gives. *)
Lemma european_as_us s :
  replace comma (u ".") (replace dot [] s)
  = replace comma [] (swap_separators s).
Proof.
  unfold replace, swap_separators. induction s as [|x s IH]; simpl; [done|].
  rewrite <- IH. unfold swap_separator.
  destruct (N.eqb_spec x dot) as [->|Hd]; [reflexivity|].
  destruct (N.eqb_spec x comma) as [->|Hc]; [reflexivity|].
  simpl. destruct (N.eqb_spec x comma); [done|]. reflexivity.
Qed.

Lemma us_as_european s :
  replace comma [] s
  = replace comma (u ".") (replace dot [] (swap_separators s)).
Proof.
  rewrite european_as_us. unfold swap_separators. rewrite map_map.
  rewrite (map_ext _ id), map_id; [done|]. apply swap_separator_invol.
Qed.

Lemma normalize_swap s :
  In dot s -> In comma s ->
  normalize_separators (swap_separators s) = normalize_separators s.
Proof.
  intros Hd Hc. unfold normalize_separators.
  assert (In dot (swap_separators s)) as Hd' by (by apply in_swap).
  assert (In comma (swap_separators s)) as Hc' by (by apply in_swap).
  rewrite !(proj2 (count_found _ _)) by done. cbn [andb].
  rewrite !rfind_swap.
  change (swap_separator comma) with dot. change (swap_separator dot) with comma.
  pose proof (rfind_apart comma dot s ltac:(done) (proj1 (rfind_found _ _) Hc)).
  destruct (Z.gtb_spec (rfind comma s) (rfind dot s));
    destruct (Z.gtb_spec (rfind dot s) (rfind comma s)); try lia.
  - symmetry. apply european_as_us.
  - symmetry. apply us_as_european.
Qed.

(** X21. A price written with both a dot and a comma reads the same when
    the two signs are exchanged: the European and the US way of writing a
    number give the same price. *)
Theorem parse_price_notation (price_text : str) :
  In dot price_text -> In comma price_text ->
  parse_price (swap_separators price_text) = parse_price price_text.
Proof.
  intros Hd Hc.
  destruct price_text as [|c s]; [done|].
  unfold parse_price. cbn [swap_separators map].
  change (swap_separator c :: map swap_separator s)
    with (swap_separators (c :: s)).
  rewrite has_percent_swap, strip_currency_swap, normalize_swap; [done | |].
  - apply List.filter_In. split; [done|]. reflexivity.
  - apply List.filter_In. split; [done|]. reflexivity.
Qed.

End NotationFacts.

Lemma parse_price_notation_witness :
  parse_price (swap_separators (u "1.999,00")) = parse_price (u "1.999,00").
Proof.
  apply (parse_price_notation (u "1.999,00")).
  - vm_compute. right. left. reflexivity.
  - vm_compute. do 5 right. left. reflexivity.
Defined.

Example swapped_text : swap_separators (u "1.999,00") = u "1,999.00".
Proof. vm_compute. reflexivity. Qed.

Lemma make_request_bounded_witness :
  (requests_made flaky_world
   < requests_made (snd (make_request coffee default_retries flaky_world)))%nat.
Proof.
  apply (proj1 (proj2 (make_request_bounded coffee default_retries flaky_world))).
  unfold default_retries. lia.
Defined.
